(** * The resilient paginated fetch engine of [rickandmorty.py]

    A shallow embedding of [fetcher], [fetch_page] and [iter_pages] and of the
    part of Python they rely on: dictionaries that live in a store and are
    passed by reference, exceptions, [try]/[except], [for] over a [range],
    and generators.  The network is an oracle: the answer to the n-th GET of
    a run is a function of n and of the request that was sent. *)

From Stdlib Require Import ZArith QArith Qpower List Bool Ascii String Lia.
From stdpp Require Import gmap strings list.

Set Warnings "-register-all".
Local Open Scope Z_scope.

(** ** Python values *)

(** What [response.json()] can decode to.  A decoded object is a [dict] whose
    keys are strings.  Numbers are integers: the engine tests a number for
    truth and nothing else. *)
Inductive json :=
| JNull
| JBool (b : bool)
| JNum (n : Z)
| JStr (s : string)
| JArr (l : list json)
| JObj (d : gmap string json).

(** Values of query parameters ([params['page'] = page_number]). *)
Inductive pval :=
| PInt (n : Z)
| PStr (s : string).

(** [bool(v)]: the test made by [if not items]. *)
Definition truthy (v : json) : bool :=
  match v with
  | JNull => false
  | JBool b => b
  | JNum n => negb (n =? 0)
  | JStr s => negb (String.eqb s "")
  | JArr l => match l with [] => false | _ :: _ => true end
  | JObj d => negb (Nat.eqb (size d) 0)
  end.

(** [k in s] for two strings. *)
Fixpoint is_substring (k s : string) : bool :=
  String.prefix k s ||
  match s with
  | EmptyString => false
  | String _ s' => is_substring k s'
  end.

(** [s.lstrip("/")] and [s.rstrip("/")]. *)
Fixpoint lstrip_slash (s : string) : string :=
  match s with
  | String c s' => if Ascii.eqb c "/"%char then lstrip_slash s' else s
  | EmptyString => s
  end.

Fixpoint rstrip_slash (s : string) : string :=
  match s with
  | EmptyString => EmptyString
  | String c s' =>
      match rstrip_slash s' with
      | EmptyString => if Ascii.eqb c "/"%char then EmptyString else String c EmptyString
      | t => String c t
      end
  end.

(** ** Exceptions *)

(** What [session.get] can raise.  The first three are the classes named in
    the [except] clause of [fetcher]; anything else is [OtherRequestError]. *)
Inductive requests_exception :=
| ConnectionError
| Timeout
| ReadTimeout
| OtherRequestError (name : string).

Inductive type_error :=
| NotAnException      (* raise of a value that is no exception *)
| NotIterable         (* [k in v] for a number, a boolean or None *)
| NotSubscriptable.   (* [v[k]] with a string key for anything but a dict *)

Inductive exn :=
| RequestException (e : requests_exception)
| HTTPError (status : Z)
| UnboundLocalError (name : string)
| JSONDecodeError
| TypeError (t : type_error)
| KeyError (k : string).

(** The tuple of the [except] clause:
    [(requests.ConnectionError, requests.Timeout, requests.ReadTimeout)]. *)
Definition caught (e : exn) : bool :=
  match e with
  | RequestException ConnectionError
  | RequestException Timeout
  | RequestException ReadTimeout => true
  | _ => false
  end.

(** ** The network and the world *)

Record response := { status_code : Z; body : option json }.

(** A request as it leaves the client: the url (any Python value: the
    continuation reference of a page is used as it comes) and the content of
    the [params] dictionary at the time of the call. *)
Record request := { req_url : json; req_params : option (gmap string pval) }.

Inductive get_outcome :=
| Responds (r : response)
| Throws (e : requests_exception).

(** What a run does to the outside.  A duration is a rational: the code
    only doubles the one it is given, which is exact on a binary float. *)
Inductive event :=
| EvGet (r : request)
| EvSleep (d : Q).

(** A reference to a dictionary is its index in the store. *)
Definition loc := nat.

Record world := { heap : list (gmap string pval); log : list event }.

Definition is_get (e : event) : bool :=
  match e with EvGet _ => true | EvSleep _ => false end.

Definition gets (l : list event) : nat := length (filter is_get l).

Definition sleeps (l : list event) : list Q :=
  omap (fun e => match e with EvSleep d => Some d | EvGet _ => None end) l.

Definition total_sleep (l : list event) : Q := fold_right Qplus 0%Q (sleeps l).

(** ** A state and exception monad *)

Inductive res (A : Type) :=
| Ret (a : A)
| Raise (e : exn).
Arguments Ret {A} a.
Arguments Raise {A} e.

Definition M (A : Type) : Type := world -> res A * world.

Definition ret {A} (a : A) : M A := fun w => (Ret a, w).

Definition raise {A} (e : exn) : M A := fun w => (Raise e, w).

Definition bind {A B} (m : M A) (k : A -> M B) : M B :=
  fun w =>
    match m w with
    | (Ret a, w') => k a w'
    | (Raise e, w') => (Raise e, w')
    end.

Notation "x <- m ;; k" := (bind m (fun x => k))
  (at level 100, m at next level, right associativity).
Notation "m ;;; k" := (bind m (fun _ => k))
  (at level 100, right associativity).

(** What a computation returns or raises from [w], and the events it adds
    to the log. *)
Definition result_of {A} (m : M A) (w : world) : res A := fst (m w).

Definition trace_of {A} (m : M A) (w : world) : list event :=
  drop (length (log w)) (log (snd (m w))).

(** [try: m except <handled> as e: h e]. *)
Definition try_except {A} (m : M A) (handled : exn -> bool) (h : exn -> M A) : M A :=
  fun w =>
    match m w with
    | (Raise e, w') => if handled e then h e w' else (Raise e, w')
    | r => r
    end.

(** [for x in xs: s = body x s]; a [continue] ends the body early. *)
Fixpoint for_each {S} (xs : list Z) (body : Z -> S -> M S) (s : S) : M S :=
  match xs with
  | [] => ret s
  | x :: xs' => s' <- body x s ;; for_each xs' body s'
  end.

(** [range(lo, hi)]. *)
Definition range (lo hi : Z) : list Z :=
  map (fun i => lo + Z.of_nat i) (seq 0 (Z.to_nat (hi - lo))).

(** [raise v] for a string [v]: Python refuses to raise it and raises
    [TypeError: exceptions must derive from BaseException] in its place. *)
Definition raise_str {A} (v : string) : M A := raise (TypeError NotAnException).

(** [time.sleep(d)]. *)
Definition sleep (d : Q) : M unit :=
  fun w => (Ret tt, {| heap := heap w; log := log w ++ [EvSleep d] |}).

(** [{}] and [dict(d)]: a new object at the end of the store. *)
Definition new_dict (d : gmap string pval) : M loc :=
  fun w => (Ret (length (heap w)), {| heap := heap w ++ [d]; log := log w |}).

Definition read_dict (l : loc) : M (gmap string pval) :=
  fun w => (Ret (default ∅ (heap w !! l)), w).

(** [d[k] = v]. *)
Definition dict_setitem (l : loc) (k : string) (v : pval) : M unit :=
  fun w =>
    (Ret tt, {| heap := alter (insert k v) l (heap w); log := log w |}).

(** [k in data]. *)
Definition contains (k : string) (data : json) : M bool :=
  match data with
  | JObj d => ret (bool_decide (is_Some (d !! k)))
  | JArr l =>
      ret (existsb (fun x => match x with JStr s => String.eqb s k | _ => false end) l)
  | JStr s => ret (is_substring k s)
  | _ => raise (TypeError NotIterable)
  end.

(** [data[k]] for a string key. *)
Definition getitem (data : json) (k : string) : M json :=
  match data with
  | JObj d =>
      match d !! k with
      | Some v => ret v
      | None => raise (KeyError k)
      end
  | _ => raise (TypeError NotSubscriptable)
  end.

(** [response.raise_for_status()] of [requests]: an [HTTPError] for a status
    from 400 to 599. *)
Definition raise_for_status (r : response) : M unit :=
  if (400 <=? status_code r) && (status_code r <? 600)
  then raise (HTTPError (status_code r))
  else ret tt.

(** [response.json()]. *)
Definition response_json (r : response) : M json :=
  match body r with
  | Some v => ret v
  | None => raise JSONDecodeError
  end.

(** The request that [session.get(url, params=params)] sends from [w]. *)
Definition request_of (url : json) (params : option loc) (w : world) : request :=
  {| req_url := url;
     req_params := option_map (fun p => default ∅ (heap w !! p)) params |}.

(** What the caller's [base_params] holds in [w] ([None] counts as empty). *)
Definition base_content (base_params : option loc) (w : world) : gmap string pval :=
  match base_params with
  | None => ∅
  | Some p => default ∅ (heap w !! p)
  end.

(** ** The engine *)

Definition RETRY_CODES : gset Z := {[ 429; 504; 503; 502; 501 ]}.

Definition default_tries : Z := 3.
Definition default_initial_backoff : Q := 1 # 2.

(** The local variables of [fetcher] that the loop assigns.  [response] is
    unbound until a GET has returned. *)
Record locals := {
  backoff : Q;
  last_exc : option exn;
  response_var : option response
}.

Definition read_response (l : locals) : M response :=
  match response_var l with
  | Some r => ret r
  | None => raise (UnboundLocalError "response")
  end.

Section Engine.

(** [urllib.parse.urljoin]. *)
Variable urljoin : string -> string -> string.

(** The answer to the n-th GET (from 0) of the run.  It stands for the
    session, the timeouts and the servers. *)
Variable net : nat -> request -> get_outcome.

(** [session.get(url, params=params, timeout=timeout)].  The timeout only
    bears on what the network answers. *)
Definition session_get (url : json) (params : option loc) : M response :=
  fun w =>
    let rq := request_of url params w in
    let w' := {| heap := heap w; log := log w ++ [EvGet rq] |} in
    match net (gets (log w)) rq with
    | Responds r => (Ret r, w')
    | Throws e => (Raise (RequestException e), w')
    end.

(** The body of [for attempt in range(1, tries + 1)].  Everything below the
    GET is indented under [except]: it runs in the handler, after a caught
    exception, never after a GET that returned.  A bare [raise] there raises
    the exception being handled.  The [print] is left out. *)
Definition attempt_body (url : json) (params : option loc) (tries : Z)
    (attempt : Z) (l : locals) : M locals :=
  try_except
    (r <- session_get url params ;;
     ret {| backoff := backoff l; last_exc := last_exc l; response_var := Some r |})
    caught
    (fun e =>
       let l := {| backoff := backoff l; last_exc := Some e;
                   response_var := response_var l |} in
       if attempt =? tries then raise e else
       sleep (backoff l) ;;;
       let l := {| backoff := (backoff l * 2)%Q; last_exc := last_exc l;
                   response_var := response_var l |} in
       r <- read_response l ;;
       if bool_decide (status_code r ∈ RETRY_CODES) then
         if attempt =? tries then raise e else
         sleep (backoff l) ;;;
         let l := {| backoff := (backoff l * 2)%Q; last_exc := last_exc l;
                     response_var := response_var l |} in
         ret l
       else
         raise_for_status r ;;;
         ret l).

Definition fetcher (url : json) (params : option loc) (tries : Z)
    (initial_backoff : Q) : M json :=
  l <- for_each (range 1 (tries + 1)) (attempt_body url params tries)
         {| backoff := initial_backoff; last_exc := None; response_var := None |} ;;
  r <- read_response l ;;
  response_json r.

(** ['info' not in data or 'results' not in data]. *)
Definition missing_keys (data : json) : M bool :=
  i <- contains "info" data ;;
  if negb i then ret true else
  r <- contains "results" data ;;
  ret (negb r).

(** [data] checked and taken apart, as both [fetch_page] and [iter_pages]
    do after their call of [fetcher]. *)
Definition unpack (data : json) : M (json * json) :=
  m <- missing_keys data ;;
  if m then raise_str "Missing expected keys in response" else
  items <- getitem data "results" ;;
  info <- getitem data "info" ;;
  next_url <- getitem info "next" ;;
  ret (items, next_url).

(** [base_params or {}]. *)
Definition or_empty (base_params : option loc) : M loc :=
  match base_params with
  | None => new_dict ∅
  | Some p =>
      d <- read_dict p ;;
      if Nat.eqb (size d) 0 then new_dict ∅ else ret p
  end.

Definition fetch_page (base_url path : string) (page_number : Z)
    (base_params : option loc) : M (json * json) :=
  let url := urljoin (rstrip_slash base_url ++ "/")%string (lstrip_slash path) in
  src <- or_empty base_params ;;
  d <- read_dict src ;;
  params <- new_dict d ;;
  dict_setitem params "page" (PInt page_number) ;;;
  data <- fetcher (JStr url) (Some params) default_tries default_initial_backoff ;;
  unpack data.

(** *** The generator [iter_pages] *)

(** Where the generator stands between two calls of [next]. *)
Inductive frame :=
| NotStarted
| AtYield (items next_url : json) (pages_fetched : Z)
| Finished.

Inductive produced :=
| Yield (batch : json)
| StopIteration.

(** The top of [while True]. *)
Definition loop_head (items next_url : json) (pages_fetched : Z) : M (produced * frame) :=
  if negb (truthy items) then ret (StopIteration, Finished)
  else ret (Yield items, AtYield items next_url pages_fetched).

Definition reached (max_pages : option Z) (pages_fetched : Z) : bool :=
  match max_pages with
  | Some m => pages_fetched >=? m
  | None => false
  end.

(** One call of [next] on the generator: the body runs to its next [yield]
    or to its end.  A generator that raises is finished. *)
Definition iter_next (base_url path : string) (base_params : option loc)
    (start_page : Z) (max_pages : option Z) (f : frame) : M (produced * frame) :=
  match f with
  | NotStarted =>
      page <- fetch_page base_url path start_page base_params ;;
      loop_head (fst page) (snd page) 0
  | AtYield items next_url pages_fetched =>
      let pages_fetched := pages_fetched + 1 in
      if reached max_pages pages_fetched then ret (StopIteration, Finished) else
      match next_url with
      | JNull => ret (StopIteration, Finished)
      | _ =>
          data <- fetcher next_url None default_tries default_initial_backoff ;;
          page <- unpack data ;;
          loop_head (fst page) (snd page) pages_fetched
      end
  | Finished => ret (StopIteration, Finished)
  end.


(** [for batch in iter_pages(...)], for at most [k] rounds. *)
Inductive run_status :=
| Live (f : frame)
| Exhausted
| Failed (e : exn).

Record run := { batches : list json; status : run_status; final : world }.

Fixpoint drive (base_url path : string) (base_params : option loc)
    (start_page : Z) (max_pages : option Z) (k : nat) (f : frame) (w : world) : run :=
  match k with
  | O => {| batches := []; status := Live f; final := w |}
  | S k' =>
      match iter_next base_url path base_params start_page max_pages f w with
      | (Ret (Yield b, f'), w') =>
          let r := drive base_url path base_params start_page max_pages k' f' w' in
          {| batches := b :: batches r; status := status r; final := final r |}
      | (Ret (StopIteration, _), w') =>
          {| batches := []; status := Exhausted; final := w' |}
      | (Raise e, w') =>
          {| batches := []; status := Failed e; final := w' |}
      end
  end.

(** [iter_pages(session, base_url, path, base_params, start_page, max_pages)]
    consumed for at most [k] rounds from a world [w]. *)
Definition iter_pages (base_url path : string) (base_params : option loc)
    (start_page : Z) (max_pages : option Z) (k : nat) (w : world) : run :=
  drive base_url path base_params start_page max_pages k NotStarted w.

End Engine.

(** The defaults of [iter_pages]: [start_page: int = 1] and
    [max_pages: int | None = None]. *)
Definition default_start_page : Z := 1.
Definition default_max_pages : option Z := None.

(** A generator that can still fetch: not started, or suspended with a
    continuation reference that is not None. *)
Definition resumable (f : frame) : Prop :=
  match f with
  | NotStarted => True
  | AtYield _ next_url _ => next_url <> JNull
  | Finished => False
  end.

(** [parse_cli]: [--max-pages] has [default=10], and [main] passes it on. *)
Definition cli_default_max_pages : Z := 10.

(** An answer that carries a page with items and a continuation reference. *)
Definition more_to_come (o : get_outcome) : bool :=
  match o with
  | Responds r =>
      match body r with
      | Some (JObj d) =>
          match d !! "results", d !! "info" with
          | Some items, Some (JObj di) =>
              truthy items &&
              match di !! "next" with
              | Some JNull | None => false
              | Some _ => true
              end
          | _, _ => false
          end
      | _ => false
      end
  | Throws _ => false
  end.

(** ** Scenarios *)

Definition empty_world : world := {| heap := []; log := [] |}.

(** A page as the server sends it: [{"info": {"next": next}, "results": items}]. *)
Definition page_body (items : list json) (next : json) : json :=
  JObj {[ "info" := JObj {[ "next" := next ]}; "results" := JArr items ]}.

(** Status 200 and a valid last page whose only item is the number of the GET. *)
Definition ok_page (n : nat) : response :=
  {| status_code := 200; body := Some (page_body [JNum (Z.of_nat n)] JNull) |}.

Definition error_body (msg : string) : json := JObj {[ "error" := JStr msg ]}.

(** Every GET succeeds. *)
Definition net_all_ok : nat -> request -> get_outcome :=
  fun n _ => Responds (ok_page n).

(** Every GET is answered with [status] and a JSON error body. *)
Definition net_status (status : Z) (msg : string) : nat -> request -> get_outcome :=
  fun _ _ => Responds {| status_code := status; body := Some (error_body msg) |}.

(** 503, 503, then success. *)
Definition net_503_503_200 : nat -> request -> get_outcome :=
  fun n _ =>
    match n with
    | 0%nat | 1%nat => Responds {| status_code := 503; body := None |}
    | _ => Responds (ok_page n)
    end.

(** A first answer with [status], then a dropped connection, then success. *)
Definition net_then_drop (status : Z) : nat -> request -> get_outcome :=
  fun n _ =>
    match n with
    | 0%nat => Responds {| status_code := status; body := None |}
    | 1%nat => Throws ConnectionError
    | _ => Responds (ok_page n)
    end.

(** The connection drops at once, then success. *)
Definition net_drop_first : nat -> request -> get_outcome :=
  fun n _ =>
    match n with
    | 0%nat => Throws ConnectionError
    | _ => Responds (ok_page n)
    end.

(** Success, then a timeout. *)
Definition net_ok_then_timeout : nat -> request -> get_outcome :=
  fun n _ =>
    match n with
    | 0%nat => Responds (ok_page n)
    | _ => Throws Timeout
    end.

(** The connection always drops. *)
Definition net_down : nat -> request -> get_outcome :=
  fun _ _ => Throws ConnectionError.

(** Every body lacks ['results']. *)
Definition net_no_results : nat -> request -> get_outcome :=
  fun _ _ =>
    Responds {| status_code := 200;
                body := Some (JObj {[ "info" := JObj {[ "next" := JNull ]} ]}) |}.

(** A first page that points to a second one, whose body lacks ['info'];
    the three GETs of the first call of [fetcher] get the first page. *)
Definition net_second_page_broken : nat -> request -> get_outcome :=
  fun n _ =>
    match n with
    | 0%nat | 1%nat | 2%nat =>
        Responds {| status_code := 200;
                    body := Some (page_body [JStr "a"; JStr "b"] (JStr "https://h/api?page=2")) |}
    | _ => Responds {| status_code := 200; body := Some (JObj {[ "results" := JArr [] ]}) |}
    end.

(** Every page has one item and points to a next page. *)
Definition net_endless : nat -> request -> get_outcome :=
  fun n _ =>
    Responds {| status_code := 200;
                body := Some (page_body [JNum (Z.of_nat n)] (JStr "https://h/api?page=next")) |}.

(** Every page is empty. *)
Definition net_empty_page : nat -> request -> get_outcome :=
  fun _ _ => Responds {| status_code := 200; body := Some (page_body [] JNull) |}.

(** A world in which the caller holds one dictionary, [{"name": "rick"}]. *)
Definition world_with_params : world :=
  {| heap := [ {[ "name" := PStr "rick" ]} ]; log := [] |}.

Definition get (url : string) : event :=
  EvGet {| req_url := JStr url; req_params := None |}.

(** ** The session and the command line *)

(** [str.lower()] on the characters of a header name. *)
Definition lower_char (c : ascii) : ascii :=
  let n := nat_of_ascii c in
  if (65 <=? n)%nat && (n <=? 90)%nat then ascii_of_nat (n + 32) else c.

Fixpoint lower (s : string) : string :=
  match s with
  | EmptyString => EmptyString
  | String c s' => String (lower_char c) (lower s')
  end.

(** The headers of a [requests.Session]: a [CaseInsensitiveDict], which
    stores under the lower-cased name the name as last written and the
    value. *)
Definition set_header (name value : string)
    (h : gmap string (string * string)) : gmap string (string * string) :=
  <[lower name := (name, value)]> h.

Definition get_header (name : string) (h : gmap string (string * string)) : option string :=
  snd <$> h !! lower name.

(** [build_session(token)] from the headers [h0] of a new [Session()]; the
    value is the headers of the session returned. *)
Definition build_session (token : option string)
    (h0 : gmap string (string * string)) : gmap string (string * string) :=
  let h := set_header "User-Agent" "layer-cli" h0 in
  match token with
  | Some t =>
      if negb (String.eqb t "")
      then set_header "Authorization" ("Bearer " ++ t)%string h
      else h
  | None => h
  end.

(** The namespace that [parse_cli] returns. *)
Record cli_args := {
  arg_command : string;
  arg_base_url : string;
  arg_path : string;
  arg_timeout : Q;
  arg_tries : Z;
  arg_token : option string;
  arg_verbose : bool;
  arg_page : Z;
  arg_all : bool;
  arg_max_pages : Z
}.

(** What [main] can end with beyond the exceptions of the engine. *)
Inductive main_error :=
| Engine (e : exn)
| NoLen                   (* TypeError: object of type ... has no len() *)
| IndexError              (* [v[0]] for an empty list or string *)
| KeyErrorInt (k : Z)     (* [v[0]] for a dict decoded from JSON *)
| SystemExit (msg : string).

(** The lines that [main] prints, by their f-string. *)
Inductive line :=
| PagesFetched (pages : Z)
| TotalItems (total_items : Z)
| LengthOfItems (n : Z)
| SampleItem (name : json)
| NextPointer (next_link : json).

Inductive main_status :=
| Running
| Done
| Died (e : main_error).

Record main_run := { printed : list line; ended : main_status; world_after : world }.

(** [len(v)]. *)
Definition py_len (v : json) : option Z :=
  match v with
  | JArr l => Some (Z.of_nat (length l))
  | JStr s => Some (Z.of_nat (String.length s))
  | JObj d => Some (Z.of_nat (size d))
  | _ => None
  end.

(** [v[0]]. *)
Definition first_item (v : json) : main_error + json :=
  match v with
  | JArr (x :: _) => inr x
  | JArr [] => inl IndexError
  | JStr (String c _) => inr (JStr (String c EmptyString))
  | JStr EmptyString => inl IndexError
  | JObj _ => inl (KeyErrorInt 0)
  | _ => inl (Engine (TypeError NotSubscriptable))
  end.

Section Script.

Variable urljoin : string -> string -> string.
Variable net : nat -> request -> get_outcome.

(** The [else] branch of [main]: one page. *)
Definition main_single (args : cli_args) (w : world) : main_run :=
  match fetch_page urljoin net (arg_base_url args) (arg_path args) (arg_page args) None w with
  | (Raise e, w1) => {| printed := []; ended := Died (Engine e); world_after := w1 |}
  | (Ret (page_items, next_link), w1) =>
      match py_len page_items with
      | None => {| printed := []; ended := Died NoLen; world_after := w1 |}
      | Some n =>
          match first_item page_items with
          | inl err =>
              {| printed := [LengthOfItems n]; ended := Died err; world_after := w1 |}
          | inr x =>
              match getitem x "name" w1 with
              | (Raise e, _) =>
                  {| printed := [LengthOfItems n]; ended := Died (Engine e);
                     world_after := w1 |}
              | (Ret name, _) =>
                  {| printed := [LengthOfItems n; SampleItem name; NextPointer next_link];
                     ended := Done; world_after := w1 |}
              end
          end
      end
  end.

(** [for page_items in iter_pages(...)] of [main], for at most [k] rounds of
    the generator. *)
Fixpoint main_loop (args : cli_args) (k : nat) (f : frame) (pages total_items : Z)
    (w : world) : main_run :=
  match k with
  | O => {| printed := []; ended := Running; world_after := w |}
  | S k' =>
      match iter_next urljoin net (arg_base_url args) (arg_path args) None
              (arg_page args) (Some (arg_max_pages args)) f w with
      | (Raise e, w') => {| printed := []; ended := Died (Engine e); world_after := w' |}
      | (Ret (StopIteration, _), w') =>
          {| printed := []; ended := Done; world_after := w' |}
      | (Ret (Yield page_items, f'), w') =>
          let pages := pages + 1 in
          match py_len page_items with
          | None => {| printed := []; ended := Died NoLen; world_after := w' |}
          | Some n =>
              let total_items := total_items + n in
              let r := main_loop args k' f' pages total_items w' in
              {| printed := PagesFetched pages :: TotalItems total_items :: printed r;
                 ended := ended r; world_after := world_after r |}
          end
      end
  end.

(** [main], from the parsed arguments.  [build_session()] is called without
    a token; [--tries], [--timeout], [--token] and [--verbose] are not read. *)
Definition main (args : cli_args) (k : nat) (w : world) : main_run :=
  if negb (String.eqb (arg_command args) "fetch") then
    {| printed := []; ended := Died (SystemExit "Only fetch command is supported");
       world_after := w |}
  else if arg_all args then main_loop args k NotStarted 0 0 w
  else main_single args w.

End Script.

(** The defaults of [parse_cli] for the one command, [fetch]. *)
Definition default_args (base_url path : string) : cli_args :=
  {| arg_command := "fetch"; arg_base_url := base_url; arg_path := path;
     arg_timeout := 21 # 2; arg_tries := 3; arg_token := None; arg_verbose := false;
     arg_page := 1; arg_all := false; arg_max_pages := cli_default_max_pages |}.

(** ** More scenarios *)


(** A page with two items that points to a last page with one; the three
    GETs of each call of [fetcher] get the same page. *)
Definition net_two_pages : nat -> request -> get_outcome :=
  fun n _ =>
    match n with
    | 0%nat | 1%nat | 2%nat =>
        Responds {| status_code := 200;
                    body := Some (page_body [JStr "a"; JStr "b"] (JStr "https://h/api?page=2")) |}
    | _ => Responds {| status_code := 200; body := Some (page_body [JStr "c"] JNull) |}
    end.

(** Every GET is answered 200 with a body that is not JSON. *)
Definition net_not_json : nat -> request -> get_outcome :=
  fun _ _ => Responds {| status_code := 200; body := None |}.

(** [fetch --base-url https://h/ --path /api --all]. *)
Definition args_all : cli_args :=
  {| arg_command := "fetch"; arg_base_url := "https://h/"; arg_path := "/api";
     arg_timeout := 21 # 2; arg_tries := 3; arg_token := None; arg_verbose := false;
     arg_page := 1; arg_all := true; arg_max_pages := cli_default_max_pages |}.

(** ** Reference values *)

(** The two lines per batch that [main] prints in its [--all] mode, from the
    counters [pages] and [total_items], for batches that have a length. *)
Fixpoint report (pages total_items : Z) (bs : list json) : list line :=
  match bs with
  | [] => []
  | b :: bs' =>
      let pages := pages + 1 in
      let total_items := total_items + default 0 (py_len b) in
      PagesFetched pages :: TotalItems total_items :: report pages total_items bs'
  end.

(** How the end of [main] corresponds to the end of the iteration. *)
Definition status_of_run (st : run_status) : main_status :=
  match st with
  | Live _ => Running
  | Exhausted => Done
  | Failed e => Died (Engine e)
  end.

(** [backoff *= 2]. *)
Definition doubled (d : Q) : Q := (d * 2)%Q.

(** The first [n] values of a backoff that starts at [b] and is doubled
    after each sleep. *)
Fixpoint backoffs (b : Q) (n : nat) : list Q :=
  match n with
  | O => []
  | S n' => b :: backoffs (doubled b) n'
  end.

(** * Properties of the engine *)

Lemma gets_app (l1 l2 : list event) : gets (l1 ++ l2) = (gets l1 + gets l2)%nat.
Proof. unfold gets. by rewrite filter_app, length_app. Qed.

Lemma for_each_app {S} (xs ys : list Z) (body : Z -> S -> M S) (s : S) (w : world) :
  for_each (xs ++ ys) body s w =
  match for_each xs body s w with
  | (Ret s', w') => for_each ys body s' w'
  | (Raise e, w') => (Raise e, w')
  end.
Proof.
  revert s w. induction xs as [|x xs IH]; intros s w; simpl; [done|].
  unfold bind. destruct (body x s w) as [[s'|e] w']; [apply IH|done].
Qed.

Lemma gets_sleeps (ds : list Q) : gets (map EvSleep ds) = 0%nat.
Proof. induction ds as [|d ds IH]; [done|]. apply IH. Qed.

Lemma not_get_in_sleeps (ds : list Q) (q : request) : EvGet q ∉ map EvSleep ds.
Proof. rewrite list_elem_of_fmap. by intros (d & [=] & _). Qed.

Lemma range_length (lo hi : Z) : length (range lo hi) = Z.to_nat (hi - lo).
Proof. unfold range. by rewrite length_map, length_seq. Qed.

(** [range(1, tries + 1)] ends with [tries]. *)
Lemma range_snoc (tries : Z) :
  1 <= tries -> range 1 (tries + 1) = range 1 tries ++ [tries].
Proof.
  intros H. unfold range.
  replace (Z.to_nat (tries + 1 - 1)) with (S (Z.to_nat (tries - 1))) by lia.
  rewrite seq_S, map_app. simpl. do 2 f_equal. lia.
Qed.

Section Facts.

Variable net : nat -> request -> get_outcome.

(** One round of the loop issues exactly one GET, first, and may sleep after
    it; it leaves the store alone. *)
Lemma attempt_body_log url params tries attempt l w r w' :
  attempt_body net url params tries attempt l w = (r, w') ->
  heap w' = heap w /\
  exists ds, log w' = log w ++ EvGet (request_of url params w) :: map EvSleep ds.
Proof.
  unfold attempt_body, try_except, bind, session_get, read_response,
    raise_for_status, sleep, raise, ret.
  intros H.
  repeat (case_match; simplify_eq/=);
    (split; [done|]); rewrite <- ?app_assoc; simpl;
    first [by exists [] | by eexists [_] | by eexists [_; _]].
Qed.

Lemma request_of_heap url params w w' :
  heap w' = heap w -> request_of url params w' = request_of url params w.
Proof. unfold request_of. by intros ->. Qed.

(** The loop issues one GET per round it starts, always the same request,
    and completes only after a GET for every element of the range. *)
Lemma loop_log url params tries xs l w r w' :
  for_each xs (attempt_body net url params tries) l w = (r, w') ->
  heap w' = heap w /\
  exists evs, log w' = log w ++ evs /\ (gets evs <= length xs)%nat /\
    (forall l', r = Ret l' -> gets evs = length xs) /\
    (forall q, EvGet q ∈ evs -> q = request_of url params w).
Proof.
  revert l w. induction xs as [|x xs IH]; intros l w; simpl.
  - unfold ret. intros [= <- <-]. split; [done|]. exists [].
    rewrite app_nil_r. repeat split; try done. intros q Hq. inversion Hq.
  - unfold bind. destruct (attempt_body _ _ _ _ _ _ _) as [[l1|e1] w1] eqn:Hb;
      apply attempt_body_log in Hb as (Hh1 & ds & Hl1).
    + intros Hrest. apply IH in Hrest as (Hh & evs & Hl & Hle & Hret & Hrq).
      split; [congruence|].
      exists (EvGet (request_of url params w) :: map EvSleep ds ++ evs).
      rewrite Hl, Hl1, <- app_assoc. simpl. split; [done|].
      change (EvGet ?q :: ?t) with ([EvGet q] ++ t).
      rewrite !gets_app, gets_sleeps. change (gets [EvGet _]) with 1%nat.
      split; [lia|]. split; [intros l' Hl'; rewrite (Hret l' Hl'); lia|].
      intros q. rewrite !elem_of_app, list_elem_of_singleton.
      intros [[= ->]|[Hq|Hq]]; [done|by apply not_get_in_sleeps in Hq|].
      rewrite <- (request_of_heap url params w w1 Hh1). by apply Hrq.
    + intros [= <- <-]. split; [done|].
      exists (EvGet (request_of url params w) :: map EvSleep ds).
      split; [done|].
      change (EvGet ?q :: ?t) with ([EvGet q] ++ t).
      rewrite gets_app, gets_sleeps. change (gets [EvGet _]) with 1%nat.
      split; [lia|]. split; [intros l' [=]|].
      intros q. rewrite elem_of_app, list_elem_of_singleton.
      intros [[= ->]|Hq]; [done|by apply not_get_in_sleeps in Hq].
Qed.

(** A caught exception on the final round is raised again at once. *)
Lemma final_attempt_transport url params tries l w e :
  net (gets (log w)) (request_of url params w) = Throws e ->
  caught (RequestException e) = true ->
  attempt_body net url params tries tries l w =
  (Raise (RequestException e),
   {| heap := heap w; log := log w ++ [EvGet (request_of url params w)] |}).
Proof.
  intros Hnet Hc. unfold attempt_body, try_except, bind, session_get.
  rewrite Hnet, Hc, Z.eqb_refl. done.
Qed.

Lemma trace_of_app {A} (m : M A) w evs :
  log (snd (m w)) = log w ++ evs -> trace_of m w = evs.
Proof. unfold trace_of. intros ->. by rewrite drop_app_length. Qed.

(** [fetcher] leaves the store alone, issues at most [tries] GETs, and every
    GET sends the same request. *)
Lemma fetcher_frame url params tries b w :
  heap (snd (fetcher net url params tries b w)) = heap w /\
  log (snd (fetcher net url params tries b w)) =
    log w ++ trace_of (fetcher net url params tries b) w /\
  (gets (trace_of (fetcher net url params tries b) w) <= Z.to_nat tries)%nat /\
  (forall q, EvGet q ∈ trace_of (fetcher net url params tries b) w ->
     q = request_of url params w).
Proof.
  assert (exists evs, heap (snd (fetcher net url params tries b w)) = heap w /\
    log (snd (fetcher net url params tries b w)) = log w ++ evs /\
    (gets evs <= Z.to_nat tries)%nat /\
    (forall q, EvGet q ∈ evs -> q = request_of url params w))
    as (evs & Hh & Hl & Hg & Hq).
  { unfold fetcher, bind.
    destruct (for_each _ _ _ _) as [[l1|e1] w1] eqn:Hloop;
      apply loop_log in Hloop as (Hh & evs & Hl & Hle & _ & Hq);
      rewrite range_length in Hle; exists evs;
      unfold read_response, response_json, raise, ret;
      repeat (case_match; simplify_eq/=); repeat split; (done || lia). }
  rewrite (trace_of_app _ _ _ Hl). done.
Qed.

(** C4, as amended: a caught transport exception on the final allowed attempt
    makes [fetcher] raise that very exception (there is no wrapping error),
    the GET of that attempt is the last event of the run, and a run never
    issues more GETs than [tries]. *)
Theorem fetcher_final_attempt_transport url params tries b w :
  (gets (trace_of (fetcher net url params tries b) w) <= Z.to_nat tries)%nat /\
  forall e,
    1 <= tries ->
    gets (trace_of (fetcher net url params tries b) w) = Z.to_nat tries ->
    net (gets (log w) + Z.to_nat tries - 1)%nat (request_of url params w) = Throws e ->
    caught (RequestException e) = true ->
    result_of (fetcher net url params tries b) w = Raise (RequestException e) /\
    last (trace_of (fetcher net url params tries b) w) =
      Some (EvGet (request_of url params w)).
Proof.
  split; [apply fetcher_frame|].
  intros e Ht Hg Hnet Hc. revert Hg.
  unfold result_of, trace_of, fetcher, bind.
  rewrite range_snoc, for_each_app by done.
  destruct (for_each (range 1 tries) _ _ _) as [[l1|e1] w1] eqn:Hloop;
    apply loop_log in Hloop as (Hh & evs & Hl & Hle & Hret & _);
    rewrite range_length in *.
  - specialize (Hret _ eq_refl). intros _. simpl. unfold bind.
    rewrite (final_attempt_transport _ _ _ _ _ e);
      [|rewrite (request_of_heap _ _ _ _ Hh)|done].
    + simpl. split; [done|].
      rewrite (request_of_heap _ _ _ _ Hh), Hl, <- app_assoc, drop_app_length.
      apply last_snoc.
    + rewrite <- Hnet. f_equal. rewrite Hl, gets_app. lia.
  - simpl. rewrite Hl, drop_app_length. lia.
Qed.

End Facts.

(** ** The attempt loop at concrete inputs *)

(** C1: with three tries and a server that answers every GET with status 200
    and a valid body, the first attempt succeeds, yet [fetcher] issues all
    three GETs and returns the payload of the third. *)
Theorem fetcher_success_is_not_immediate :
  result_of (fetcher net_all_ok (JStr "u") None 3 (1 # 2)) empty_world =
    Ret (page_body [JNum 2] JNull) /\
  trace_of (fetcher net_all_ok (JStr "u") None 3 (1 # 2)) empty_world =
    [get "u"; get "u"; get "u"].
Proof. split; reflexivity. Qed.

(** C2: a response with status 404 is never looked at: [fetcher] issues all
    three GETs and returns the decoded body of the last, raising nothing. *)
Theorem fetcher_returns_on_404 :
  result_of (fetcher (net_status 404 "There is nothing here") (JStr "u") None 3 (1 # 2))
    empty_world = Ret (error_body "There is nothing here") /\
  trace_of (fetcher (net_status 404 "There is nothing here") (JStr "u") None 3 (1 # 2))
    empty_world = [get "u"; get "u"; get "u"].
Proof. split; reflexivity. Qed.

(** C3: on 503, 503, 200 with three tries and an initial backoff of half a
    second, [fetcher] returns the third payload and never sleeps: the time
    slept is 0, not one second and a half. *)
Theorem fetcher_does_not_sleep_on_503 :
  result_of (fetcher net_503_503_200 (JStr "u") None 3 (1 # 2)) empty_world =
    Ret (page_body [JNum 2] JNull) /\
  sleeps (trace_of (fetcher net_503_503_200 (JStr "u") None 3 (1 # 2)) empty_world) = [] /\
  ~ (total_sleep (trace_of (fetcher net_503_503_200 (JStr "u") None 3 (1 # 2)) empty_world)
     == (1 # 2) + 2 * (1 # 2))%Q.
Proof. repeat split; try reflexivity. intros H. vm_compute in H. discriminate. Qed.

(** C4 fails as stated: on the only allowed attempt, a response with the
    retryable status 503 makes [fetcher] return its decoded body, and a
    dropped connection makes it raise the connection error itself. *)
Lemma fetcher_final_attempt_counterexample :
  result_of (fetcher (net_status 503 "Service Unavailable") (JStr "u") None 1 (1 # 2))
    empty_world = Ret (error_body "Service Unavailable") /\
  result_of (fetcher net_down (JStr "u") None 1 (1 # 2)) empty_world =
    Raise (RequestException ConnectionError).
Proof. split; reflexivity. Qed.

Lemma fetcher_final_attempt_transport_witness :
  result_of (fetcher net_ok_then_timeout (JStr "u") None 2 (1 # 2)) empty_world =
    Raise (RequestException Timeout) /\
  last (trace_of (fetcher net_ok_then_timeout (JStr "u") None 2 (1 # 2)) empty_world) =
    Some (EvGet (request_of (JStr "u") None empty_world)).
Proof.
  apply (proj2 (fetcher_final_attempt_transport net_ok_then_timeout
                  (JStr "u") None 2 (1 # 2) empty_world) Timeout);
    [lia | reflexivity | reflexivity | reflexivity].
Defined.

(** C5: the second attempt ends in the same dropped connection in the first
    three runs, and what [fetcher] does then is decided by the response of
    the first attempt: after a 503 it sleeps twice and goes on, after a 404
    it raises an HTTP error for 404, after a 200 it sleeps once and goes on.
    With no earlier response the variable is unbound. *)
Theorem fetcher_consults_stale_response :
  (result_of (fetcher (net_then_drop 503) (JStr "u") None 3 (1 # 2)) empty_world =
     Ret (page_body [JNum 2] JNull) /\
   trace_of (fetcher (net_then_drop 503) (JStr "u") None 3 (1 # 2)) empty_world =
     [get "u"; get "u"; EvSleep (1 # 2); EvSleep ((1 # 2) * 2); get "u"]) /\
  (result_of (fetcher (net_then_drop 404) (JStr "u") None 3 (1 # 2)) empty_world =
     Raise (HTTPError 404) /\
   trace_of (fetcher (net_then_drop 404) (JStr "u") None 3 (1 # 2)) empty_world =
     [get "u"; get "u"; EvSleep (1 # 2)]) /\
  (result_of (fetcher (net_then_drop 200) (JStr "u") None 3 (1 # 2)) empty_world =
     Ret (page_body [JNum 2] JNull) /\
   trace_of (fetcher (net_then_drop 200) (JStr "u") None 3 (1 # 2)) empty_world =
     [get "u"; get "u"; EvSleep (1 # 2); get "u"]) /\
  (result_of (fetcher net_drop_first (JStr "u") None 3 (1 # 2)) empty_world =
     Raise (UnboundLocalError "response") /\
   trace_of (fetcher net_drop_first (JStr "u") None 3 (1 # 2)) empty_world =
     [get "u"; EvSleep (1 # 2)]).
Proof. repeat split; reflexivity. Qed.

(** C6: a body without ['results'] makes [fetch_page], and a second page
    without ['info'] makes [iter_pages], fail with the [TypeError] that
    Python raises for the raise of a string. *)
Theorem missing_keys_raise_type_error :
  result_of (fetch_page String.append net_no_results "https://h/" "/api" 1 None)
    empty_world = Raise (TypeError NotAnException) /\
  batches (iter_pages String.append net_second_page_broken "https://h/" "/api" None 1 None
             5 empty_world) = [JArr [JStr "a"; JStr "b"]] /\
  status (iter_pages String.append net_second_page_broken "https://h/" "/api" None 1 None
            5 empty_world) = Failed (TypeError NotAnException).
Proof. repeat split; reflexivity. Qed.

(** ** Pagination *)

Section Pagination.

Variable urljoin : string -> string -> string.
Variable net : nat -> request -> get_outcome.

Lemma or_empty_run base_params w :
  exists tmp src,
    or_empty base_params w = (Ret src, {| heap := heap w ++ tmp; log := log w |}) /\
    default ∅ ((heap w ++ tmp) !! src) = base_content base_params w.
Proof.
  destruct base_params as [p|]; simpl.
  - unfold bind, read_dict. simpl.
    destruct (Nat.eqb (size (default ∅ (heap w !! p))) 0) eqn:Hsz.
    + exists [∅], (length (heap w)). split; [done|].
      apply Nat.eqb_eq, map_size_empty_inv in Hsz. rewrite Hsz.
      by rewrite lookup_app_r, Nat.sub_diag by done.
    + exists [], p. rewrite app_nil_r. by destruct w.
  - exists [∅], (length (heap w)). split; [done|].
    by rewrite lookup_app_r, Nat.sub_diag by done.
Qed.

Lemma unpack_pure data w : snd (unpack data w) = w.
Proof.
  unfold unpack, missing_keys, contains, getitem, raise_str, bind, raise, ret.
  repeat (case_match; simplify_eq/=); done.
Qed.

(** [fetch_page] up to its call of [fetcher]: the copy of [base_params], with
    ['page'] set, is a new object at the end of the store. *)
Lemma fetch_page_run base_url path page base_params w :
  exists tmp,
    fetch_page urljoin net base_url path page base_params w =
    bind (fetcher net
            (JStr (urljoin (rstrip_slash base_url ++ "/")%string (lstrip_slash path)))
            (Some (length (heap w ++ tmp))) default_tries default_initial_backoff)
         unpack
         {| heap := (heap w ++ tmp) ++ [<["page" := PInt page]> (base_content base_params w)];
            log := log w |}.
Proof.
  destruct (or_empty_run base_params w) as (tmp & src & Hrun & Hsrc).
  exists tmp. unfold fetch_page. unfold bind at 1. rewrite Hrun.
  unfold bind at 1, read_dict at 1. unfold bind at 1, new_dict at 1.
  unfold bind at 1, dict_setitem at 1. simpl.
  rewrite Hsrc.
  replace (length (heap w ++ tmp)) with (length (heap w ++ tmp) + 0)%nat at 2 by lia.
  by rewrite alter_app_r.
Qed.

Lemma bind_unpack_world (m : M json) w : snd (bind m unpack w) = snd (m w).
Proof. unfold bind. destruct (m w) as [[a|e] w1]; [apply unpack_pure|done]. Qed.

(** C10: [fetch_page] changes no dictionary that exists when it is called,
    the caller's [base_params] among them: the parameters it sends are a new
    object of the store, the content of [base_params] with ['page'] set. *)
Theorem fetch_page_leaves_base_params base_url path page base_params w :
  let w' := snd (fetch_page urljoin net base_url path page base_params w) in
  let sent := <["page" := PInt page]> (base_content base_params w) in
  (forall l d, heap w !! l = Some d -> heap w' !! l = Some d) /\
  (length (heap w) < length (heap w'))%nat /\
  last (heap w') = Some sent /\
  (forall q, EvGet q ∈ trace_of (fetch_page urljoin net base_url path page base_params) w ->
     req_params q = Some sent).
Proof.
  intros w' sent. subst w'. unfold trace_of.
  destruct (fetch_page_run base_url path page base_params w) as (tmp & ->).
  rewrite bind_unpack_world. fold sent.
  set (w3 := {| heap := (heap w ++ tmp) ++ [sent]; log := log w |}).
  set (url := JStr _).
  destruct (fetcher_frame net url (Some (length (heap w ++ tmp)))
              default_tries default_initial_backoff w3) as (Hh & Hl & _ & Hq).
  rewrite Hh. simpl. repeat split.
  - intros l d Hl0. by do 2 apply lookup_app_l_Some.
  - rewrite !length_app. simpl. lia.
  - apply last_snoc.
  - intros q Hin. rewrite (Hq q Hin). simpl.
    by rewrite lookup_app_r, Nat.sub_diag by done.
Qed.

(** C7: when the first page fetched has an empty list of items, the iteration
    yields nothing and ends normally, and the world is left as the first
    call of [fetch_page] left it. *)
Theorem iter_pages_empty_first_page base_url path base_params start_page max_pages
    k w next_url w1 :
  fetch_page urljoin net base_url path start_page base_params w =
    (Ret (JArr [], next_url), w1) ->
  iter_pages urljoin net base_url path base_params start_page max_pages (S k) w =
    {| batches := []; status := Exhausted; final := w1 |}.
Proof.
  intros Hpage. unfold iter_pages. simpl. unfold bind. by rewrite Hpage.
Qed.

(** A resumed generator that yields has not reached the cap, and stands at
    the next count. *)
Lemma iter_next_resumed base_url path base_params start_page max_pages
    items next_url pages_fetched w b f' w' :
  iter_next urljoin net base_url path base_params start_page max_pages
    (AtYield items next_url pages_fetched) w = (Ret (Yield b, f'), w') ->
  reached max_pages (pages_fetched + 1) = false /\
  exists next_url', f' = AtYield b next_url' (pages_fetched + 1).
Proof.
  simpl. unfold loop_head, bind, ret.
  intros H. repeat (case_match; simplify_eq/=); eauto.
Qed.

Lemma iter_next_started base_url path base_params start_page max_pages w b f' w' :
  iter_next urljoin net base_url path base_params start_page max_pages NotStarted w =
    (Ret (Yield b, f'), w') ->
  exists next_url', f' = AtYield b next_url' 0.
Proof.
  simpl. unfold loop_head, bind, ret.
  intros H. repeat (case_match; simplify_eq/=); eauto.
Qed.

(** At the cap, the resumed generator stops and touches nothing. *)
Lemma iter_next_at_cap base_url path base_params start_page N
    items next_url pages_fetched w :
  N <= pages_fetched + 1 ->
  iter_next urljoin net base_url path base_params start_page (Some N)
    (AtYield items next_url pages_fetched) w = (Ret (StopIteration, Finished), w).
Proof.
  intros H. simpl.
  replace (pages_fetched + 1 >=? N) with true by lia. done.
Qed.

Lemma drive_S base_url path base_params start_page max_pages k f w :
  drive urljoin net base_url path base_params start_page max_pages (S k) f w =
  match iter_next urljoin net base_url path base_params start_page max_pages f w with
  | (Ret (Yield b, f'), w') =>
      let r := drive urljoin net base_url path base_params start_page max_pages k f' w' in
      {| batches := b :: batches r; status := status r; final := final r |}
  | (Ret (StopIteration, _), w') => {| batches := []; status := Exhausted; final := w' |}
  | (Raise e, w') => {| batches := []; status := Failed e; final := w' |}
  end.
Proof. reflexivity. Qed.

(** From a suspended generator that has counted [pages_fetched] pages, at
    most [N - 1 - pages_fetched] more batches come; once they have come, one
    more round ends the iteration where it stands. *)
Lemma drive_capped base_url path base_params start_page N k :
  forall items next_url pages_fetched w,
  pages_fetched < N ->
  let r := drive urljoin net base_url path base_params start_page (Some N) k
             (AtYield items next_url pages_fetched) w in
  let r' := drive urljoin net base_url path base_params start_page (Some N) (S k)
              (AtYield items next_url pages_fetched) w in
  (length (batches r) <= Z.to_nat (N - 1 - pages_fetched))%nat /\
  (length (batches r) = Z.to_nat (N - 1 - pages_fetched) ->
   batches r' = batches r /\ status r' = Exhausted /\ final r' = final r).
Proof.
  induction k as [|k IH]; intros items next_url pf w Hpf r r'; subst r r'.
  - rewrite drive_S. cbn [drive batches final length]. split; [lia|].
    intros H0. by rewrite iter_next_at_cap by lia.
  - rewrite (drive_S _ _ _ _ _ (S k)), (drive_S _ _ _ _ _ k).
    destruct (iter_next _ _ _ _ _ _ _ _ _) as [[[[b|] f']|e] w'] eqn:Hn.
    + apply iter_next_resumed in Hn as (Hcap & next_url' & ->).
      simpl in Hcap. assert (pf + 1 < N) as Hlt by lia.
      destruct (IH b next_url' (pf + 1) w' Hlt) as (Hle & Heq).
      cbv zeta. cbn [batches status final length]. split; [lia|].
      intros Hlen. destruct Heq as (Hb & Hs & Hf); [lia|].
      by rewrite Hb, Hs, Hf.
    + cbn [batches status final length]. split; [lia|done].
    + cbn [batches status final length]. split; [lia|]. intros H0.
      rewrite iter_next_at_cap in Hn by lia. discriminate.
Qed.

(** With [max_pages = N], [N >= 1], at most [N] batches are yielded; after the
    [N]-th, one more round ends the iteration without a fetch. *)
Lemma iter_pages_capped base_url path base_params start_page N k w :
  1 <= N ->
  let r := iter_pages urljoin net base_url path base_params start_page (Some N) k w in
  let r' := iter_pages urljoin net base_url path base_params start_page (Some N) (S k) w in
  (length (batches r) <= Z.to_nat N)%nat /\
  (length (batches r) = Z.to_nat N ->
   batches r' = batches r /\ status r' = Exhausted /\ final r' = final r).
Proof.
  intros HN r r'. subst r r'. unfold iter_pages.
  destruct k as [|k].
  - simpl. split; lia.
  - rewrite (drive_S _ _ _ _ _ (S k)), (drive_S _ _ _ _ _ k).
    destruct (iter_next _ _ _ _ _ _ _ _ _) as [[[[b|] f']|e] w'] eqn:Hn.
    + apply iter_next_started in Hn as (next_url' & ->).
      destruct (drive_capped base_url path base_params start_page N k b next_url' 0 w'
                  ltac:(lia)) as (Hle & Heq).
      cbv zeta. cbn [batches status final length]. split; [lia|].
      intros Hlen. destruct Heq as (Hb & Hs & Hf); [lia|].
      by rewrite Hb, Hs, Hf.
    + cbn [batches status final length]. split; [lia|done].
    + cbn [batches status final length]. split; lia.
Qed.

(** C8: with [max_pages = N], [N >= 1], [iter_pages] yields at most [N]
    batches whatever the server sends; once [N] batches are out, asking for
    one more ends the iteration normally, with the same batches and the world
    as it was: no GET for page [N + 1]. *)
Theorem iter_pages_max_pages base_url path base_params start_page N k w :
  1 <= N ->
  let r := iter_pages urljoin net base_url path base_params start_page (Some N) k w in
  let r' := iter_pages urljoin net base_url path base_params start_page (Some N) (S k) w in
  (length (batches r) <= Z.to_nat N)%nat /\
  (length (batches r) = Z.to_nat N ->
   batches r' = batches r /\ status r' = Exhausted /\ final r' = final r).
Proof. apply iter_pages_capped. Qed.

Lemma more_to_come_inv o :
  more_to_come o = true ->
  exists r d di items next_url,
    o = Responds r /\ body r = Some (JObj d) /\
    d !! "results" = Some items /\ truthy items = true /\
    d !! "info" = Some (JObj di) /\ di !! "next" = Some next_url /\ next_url <> JNull.
Proof.
  unfold more_to_come. intros H.
  repeat (case_match; simplify_eq/=); try done;
    apply andb_prop in H as [? ?]; try done;
    do 5 eexists; repeat split; eauto; done.
Qed.

Lemma unpack_more d di items next_url w :
  d !! "results" = Some items -> d !! "info" = Some (JObj di) ->
  di !! "next" = Some next_url ->
  unpack (JObj d) w = (Ret (items, next_url), w).
Proof.
  intros Hr Hi Hn. unfold unpack, missing_keys, contains, getitem, bind, ret.
  rewrite Hr, Hi. simpl. by rewrite Hn.
Qed.

(** When every GET is answered, the default three tries are three GETs and
    the body of the third answer is returned. *)
Lemma fetcher_more url params w :
  (forall n q, more_to_come (net n q) = true) ->
  exists items next_url w',
    bind (fetcher net url params default_tries default_initial_backoff) unpack w =
      (Ret (items, next_url), w') /\
    truthy items = true /\ next_url <> JNull.
Proof.
  intros Hmore. unfold fetcher, default_tries.
  change (range 1 (3 + 1)) with [1; 2; 3]. simpl for_each.
  unfold bind, attempt_body, try_except, bind, session_get, ret.
  repeat match goal with
  | |- context [net ?n ?q] =>
      destruct (more_to_come_inv _ (Hmore n q))
        as (? & ? & ? & ? & ? & -> & ? & ? & ? & ? & ? & ?); simpl
  end.
  match goal with H : body _ = Some _ |- _ => unfold response_json; rewrite H end.
  unfold ret. erewrite unpack_more by eauto.
  do 3 eexists. split; [reflexivity|]. by split.
Qed.

Lemma iter_next_more base_url path base_params start_page f w :
  (forall n q, more_to_come (net n q) = true) ->
  resumable f ->
  exists b f' w',
    iter_next urljoin net base_url path base_params start_page None f w =
      (Ret (Yield b, f'), w') /\ resumable f'.
Proof.
  intros Hmore Hf. destruct f as [|items next_url pf|]; [| |done].
  - simpl. destruct (fetch_page_run base_url path start_page base_params w) as (tmp & Hrun).
    set (w3 := {| heap := _; log := _ |}) in Hrun.
    destruct (fetcher_more (JStr (urljoin (rstrip_slash base_url ++ "/")%string
                (lstrip_slash path))) (Some (length (heap w ++ tmp))) w3 Hmore)
      as (items & next_url & w' & Hf' & Ht & Hn).
    unfold bind at 1. rewrite Hrun, Hf'. simpl. unfold loop_head. rewrite Ht. simpl.
    unfold ret. eauto.
  - simpl in Hf.
    destruct (fetcher_more next_url None w Hmore) as (items' & next_url' & w' & Hf' & Ht & Hn).
    simpl. unfold bind in Hf' |- *.
    destruct next_url; try done;
      destruct (fetcher _ _ _ _ _ _) as [[data|e] w1]; try done;
      rewrite Hf'; simpl; unfold loop_head; rewrite Ht; simpl; unfold ret; eauto.
Qed.

(** Without a cap, on a server that always has more, every round yields. *)
Lemma drive_more base_url path base_params start_page k :
  (forall n q, more_to_come (net n q) = true) ->
  forall f w, resumable f ->
  length (batches (drive urljoin net base_url path base_params start_page None k f w)) = k /\
  exists f', status (drive urljoin net base_url path base_params start_page None k f w) =
             Live f'.
Proof.
  intros Hmore. induction k as [|k IH]; intros f w Hf.
  - simpl. eauto.
  - rewrite drive_S.
    destruct (iter_next_more base_url path base_params start_page f w Hmore Hf)
      as (b & f' & w' & -> & Hf').
    destruct (IH f' w' Hf') as (Hlen & f'' & Hst).
    cbv zeta. cbn [batches status final length]. rewrite Hlen. eauto.
Qed.

(** C9, as amended: [iter_pages] has no cap of its own.  With [max_pages]
    left at its default, a server whose every page has items and a
    continuation reference is followed for as long as batches are asked for.
    The finite default, 10, is the one of the command line: with it at most
    ten batches are yielded. *)
Theorem iter_pages_default_has_no_cap base_url path base_params start_page w :
  (forall k,
     (length (batches (iter_pages urljoin net base_url path base_params start_page
                         (Some cli_default_max_pages) k w)) <= 10)%nat) /\
  ((forall n q, more_to_come (net n q) = true) ->
   forall k,
     length (batches (iter_pages urljoin net base_url path base_params start_page
                        default_max_pages k w)) = k /\
     exists f, status (iter_pages urljoin net base_url path base_params start_page
                         default_max_pages k w) = Live f).
Proof.
  split.
  - intros k.
    apply (iter_pages_capped base_url path base_params start_page
             cli_default_max_pages k w). unfold cli_default_max_pages. lia.
  - intros Hmore k. by apply drive_more.
Qed.

End Pagination.

(** ** Pagination at concrete inputs *)

Lemma iter_pages_empty_first_page_witness :
  iter_pages String.append net_empty_page "https://h/" "/api" None default_start_page
    default_max_pages 3 empty_world =
  {| batches := []; status := Exhausted;
     final := snd (fetch_page String.append net_empty_page "https://h/" "/api"
                     default_start_page None empty_world) |}.
Proof.
  apply (iter_pages_empty_first_page String.append net_empty_page
           "https://h/" "/api" None default_start_page default_max_pages 2
           empty_world JNull).
  reflexivity.
Defined.

Lemma iter_pages_max_pages_witness :
  batches (iter_pages String.append net_endless "https://h/" "/api" None 1 (Some 2) 3
             empty_world) =
  batches (iter_pages String.append net_endless "https://h/" "/api" None 1 (Some 2) 2
             empty_world) /\
  status (iter_pages String.append net_endless "https://h/" "/api" None 1 (Some 2) 3
            empty_world) = Exhausted /\
  final (iter_pages String.append net_endless "https://h/" "/api" None 1 (Some 2) 3
           empty_world) =
  final (iter_pages String.append net_endless "https://h/" "/api" None 1 (Some 2) 2
           empty_world).
Proof.
  apply (iter_pages_max_pages String.append net_endless "https://h/" "/api" None 1 2 2
           empty_world); [lia | reflexivity].
Defined.

(** C9 fails as stated: with [max_pages] left out, no number bounds the
    batches that [iter_pages] yields on a server that always has more. *)
Lemma iter_pages_unbounded_by_default :
  ~ exists bound : nat, forall k,
      (length (batches (iter_pages String.append net_endless "https://h/" "/api" None
                          default_start_page default_max_pages k empty_world)) <= bound)%nat.
Proof.
  intros [bound H]. specialize (H (S bound)).
  destruct (drive_more String.append net_endless "https://h/" "/api" None
              default_start_page (S bound) (fun _ _ => eq_refl) NotStarted empty_world I)
    as [Hlen _].
  unfold iter_pages, default_max_pages in H. rewrite Hlen in H. lia.
Qed.

Lemma iter_pages_default_has_no_cap_witness :
  length (batches (iter_pages String.append net_endless "https://h/" "/api" None
                     default_start_page default_max_pages 12 empty_world)) = 12%nat /\
  exists f, status (iter_pages String.append net_endless "https://h/" "/api" None
                      default_start_page default_max_pages 12 empty_world) = Live f.
Proof.
  apply (proj2 (iter_pages_default_has_no_cap String.append net_endless
                  "https://h/" "/api" None default_start_page empty_world)).
  intros n q. reflexivity.
Defined.

Lemma fetch_page_leaves_base_params_witness :
  heap (snd (fetch_page String.append net_all_ok "https://h/" "/api" 3 (Some 0%nat)
               world_with_params)) !! 0%nat = Some {[ "name" := PStr "rick" ]}.
Proof.
  apply (proj1 (fetch_page_leaves_base_params String.append net_all_ok
                  "https://h/" "/api" 3 (Some 0%nat) world_with_params)).
  reflexivity.
Defined.

(** * More on the attempt loop *)

Lemma range_nil (lo hi : Z) : hi <= lo -> range lo hi = [].
Proof. intros H. unfold range. by replace (Z.to_nat (hi - lo)) with 0%nat by lia. Qed.

Lemma range_cons (lo hi : Z) : lo < hi -> range lo hi = lo :: range (lo + 1) hi.
Proof.
  intros H. unfold range.
  replace (Z.to_nat (hi - lo)) with (S (Z.to_nat (hi - (lo + 1)))) by lia.
  simpl. f_equal; [lia|].
  rewrite <- seq_shift, map_map. apply map_ext. intros i. lia.
Qed.

Section Attempts.

Variable net : nat -> request -> get_outcome.

(** A GET that is answered only binds [response]. *)
Lemma attempt_answered url params tries attempt l w r :
  net (gets (log w)) (request_of url params w) = Responds r ->
  attempt_body net url params tries attempt l w =
  (Ret {| backoff := backoff l; last_exc := last_exc l; response_var := Some r |},
   {| heap := heap w; log := log w ++ [EvGet (request_of url params w)] |}).
Proof.
  intros Hnet. unfold attempt_body, try_except, bind, session_get.
  by rewrite Hnet.
Qed.


Lemma gets_snoc_get (l : list event) (q : request) :
  gets (l ++ [EvGet q]) = S (gets l).
Proof. rewrite gets_app. change (gets [EvGet q]) with 1%nat. lia. Qed.

(** When every GET of the loop is answered, the loop runs to its end, only
    issues GETs, and [response] is the answer to the last one. *)
Lemma loop_answered url params tries xs :
  forall l w,
  (forall i, (i < length xs)%nat ->
     exists r, net (gets (log w) + i)%nat (request_of url params w) = Responds r) ->
  exists l',
    for_each xs (attempt_body net url params tries) l w =
      (Ret l', {| heap := heap w;
                  log := log w ++ replicate (length xs) (EvGet (request_of url params w)) |}) /\
    (xs = [] -> l' = l) /\
    (forall r, xs <> [] ->
       net (gets (log w) + length xs - 1)%nat (request_of url params w) = Responds r ->
       response_var l' = Some r).
Proof.
  induction xs as [|x xs IH]; intros l w Hnet.
  - exists l. simpl. rewrite app_nil_r. destruct w. by repeat split.
  - destruct (Hnet 0%nat ltac:(simpl; lia)) as (r0 & Hr0).
    rewrite Nat.add_0_r in Hr0.
    set (w1 := {| heap := heap w; log := log w ++ [EvGet (request_of url params w)] |}).
    set (l1 := {| backoff := backoff l; last_exc := last_exc l; response_var := Some r0 |}).
    destruct (IH l1 w1) as (l' & Hloop & Hnil & Hlast).
    { intros i Hi. destruct (Hnet (S i) ltac:(simpl; lia)) as (r & Hr).
      exists r. subst w1. simpl. rewrite gets_snoc_get.
      by replace (S (gets (log w)) + i)%nat with (gets (log w) + S i)%nat by lia. }
    exists l'. simpl for_each. unfold bind.
    rewrite (attempt_answered _ _ _ _ _ _ r0 Hr0). fold w1 l1. rewrite Hloop.
    split; [|split].
    + subst w1. simpl. by rewrite <- app_assoc.
    + done.
    + intros r _ Hr. destruct xs as [|x' xs].
      * rewrite (Hnil eq_refl). subst l1. simpl in *.
        replace (gets (log w) + 1 - 1)%nat with (gets (log w)) in Hr by lia.
        congruence.
      * apply Hlast; [done|]. subst w1. simpl in *. rewrite gets_snoc_get.
        by replace (S (gets (log w)) + S (length xs) - 1)%nat
          with (gets (log w) + S (S (length xs)) - 1)%nat by lia.
Qed.

(** X1: when each of the [tries] GETs is answered, whatever the statuses,
    [fetcher] issues exactly [tries] GETs and nothing else, and returns the
    decoded body of the last answer, or raises [JSONDecodeError] when that
    body does not decode. *)
Theorem fetcher_all_answered url params tries b w r_last :
  1 <= tries ->
  (forall i, (i < Z.to_nat tries)%nat ->
     exists r, net (gets (log w) + i)%nat (request_of url params w) = Responds r) ->
  net (gets (log w) + Z.to_nat tries - 1)%nat (request_of url params w) = Responds r_last ->
  trace_of (fetcher net url params tries b) w =
    replicate (Z.to_nat tries) (EvGet (request_of url params w)) /\
  result_of (fetcher net url params tries b) w =
    match body r_last with
    | Some v => Ret v
    | None => Raise JSONDecodeError
    end.
Proof.
  intros Ht Hnet Hlast.
  destruct (loop_answered url params tries (range 1 (tries + 1))
              {| backoff := b; last_exc := None; response_var := None |} w)
    as (l' & Hloop & _ & Hresp).
  { rewrite range_length. intros i Hi. apply Hnet. lia. }
  rewrite range_length in Hloop, Hresp.
  replace (Z.to_nat (tries + 1 - 1)) with (Z.to_nat tries) in * by lia.
  assert (response_var l' = Some r_last) as Hr.
  { apply Hresp; [|done]. rewrite range_cons by lia. done. }
  unfold trace_of, result_of, fetcher, bind. rewrite Hloop.
  unfold read_response. rewrite Hr. unfold ret, response_json.
  destruct (body r_last); simpl; by rewrite drop_app_length.
Qed.

Lemma fetcher_without_tries_eq url params tries b w :
  tries <= 0 ->
  fetcher net url params tries b w = (Raise (UnboundLocalError "response"), w).
Proof.
  intros Ht. unfold fetcher. by rewrite range_nil by lia.
Qed.

(** X2: with [tries <= 0] the loop body never runs: [fetcher] issues no GET
    and fails on the unbound [response]. *)
Theorem fetcher_without_tries url params tries b w :
  tries <= 0 ->
  fetcher net url params tries b w = (Raise (UnboundLocalError "response"), w).
Proof. apply fetcher_without_tries_eq. Qed.


End Attempts.

(** ** Exceptions and the returned body *)

Section Outcomes.

Variable net : nat -> request -> get_outcome.



(** The final round returns only when its GET is answered. *)
Lemma final_attempt_returns url params tries l w l' w' :
  attempt_body net url params tries tries l w = (Ret l', w') ->
  exists r, net (gets (log w)) (request_of url params w) = Responds r /\
            response_var l' = Some r.
Proof.
  unfold attempt_body, try_except, bind, session_get, raise, ret.
  rewrite Z.eqb_refl. intros H.
  repeat (case_match; simplify_eq/=); eauto.
Qed.

Lemma fetcher_returns_inv url params tries b w v :
  result_of (fetcher net url params tries b) w = Ret v ->
  1 <= tries /\
  gets (trace_of (fetcher net url params tries b) w) = Z.to_nat tries /\
  exists r,
    net (gets (log w) + Z.to_nat tries - 1)%nat (request_of url params w) = Responds r /\
    body r = Some v.
Proof.
  destruct (Z.le_gt_cases tries 0) as [Hle|Hgt].
  { unfold result_of. by rewrite fetcher_without_tries_eq. }
  unfold result_of, trace_of, fetcher, bind.
  rewrite range_snoc, for_each_app by lia.
  destruct (for_each (range 1 tries) _ _ _) as [[l1|e1] w1] eqn:Hloop; [|done].
  apply loop_log in Hloop as (Hh & evs & Hl & _ & Hret & _).
  specialize (Hret _ eq_refl). rewrite range_length in Hret.
  simpl for_each. unfold bind.
  destruct (attempt_body _ _ _ _ _ _ _) as [[l2|e2] w2] eqn:Hb; [|done].
  pose proof Hb as Hb'. apply attempt_body_log in Hb' as (Hh2 & ds & Hl2).
  apply final_attempt_returns in Hb as (r & Hnet & Hr).
  unfold ret, read_response. rewrite Hr. unfold ret, response_json.
  destruct (body r) as [v'|] eqn:Hbody; [|done].
  simpl. intros [= ->]. split; [lia|]. split.
  - rewrite Hl2, Hl, <- app_assoc, drop_app_length.
    change (EvGet ?q :: ?t) with ([EvGet q] ++ t).
    rewrite !gets_app, gets_sleeps. change (gets [EvGet _]) with 1%nat. lia.
  - exists r. split; [|done].
    rewrite <- Hnet, (request_of_heap _ _ _ _ Hh), Hl, gets_app. f_equal. lia.
Qed.

(** X6: [fetcher] returns a value only as the decoded body of the answer to
    its last allowed GET: a normal return means that [tries >= 1], that all
    [tries] GETs were issued, and that the last was answered with that body. *)
Theorem fetcher_returns_last_body url params tries b w v :
  result_of (fetcher net url params tries b) w = Ret v ->
  1 <= tries /\
  gets (trace_of (fetcher net url params tries b) w) = Z.to_nat tries /\
  exists r,
    net (gets (log w) + Z.to_nat tries - 1)%nat (request_of url params w) = Responds r /\
    body r = Some v.
Proof. apply fetcher_returns_inv. Qed.

End Outcomes.

(** ** The sleeps of a run *)

Lemma sleeps_app (l1 l2 : list event) : sleeps (l1 ++ l2) = sleeps l1 ++ sleeps l2.
Proof. apply omap_app. Qed.

Lemma sleeps_of_sleeps (ds : list Q) : sleeps (map EvSleep ds) = ds.
Proof. induction ds as [|d ds IH]; [done|]. simpl. by rewrite IH. Qed.

Lemma backoffs_length (b : Q) (n : nat) : length (backoffs b n) = n.
Proof. revert b. induction n as [|n IH]; intros b; simpl; [done|]. by rewrite IH. Qed.

Lemma backoffs_app (b : Q) (n m : nat) :
  backoffs b (n + m) = backoffs b n ++ backoffs (Nat.iter n doubled b) m.
Proof.
  revert b. induction n as [|n IH]; intros b; simpl; [done|].
  by rewrite IH, Nat.iter_swap.
Qed.

(** The [i]-th value is the first one times [2 ^ i]. *)
Lemma backoffs_lookup (b : Q) (n i : nat) (d : Q) :
  backoffs b n !! i = Some d -> (d == b * 2 ^ Z.of_nat i)%Q.
Proof.
  revert b i. induction n as [|n IH]; intros b i H; [done|].
  destruct i as [|i]; simpl in H.
  - injection H as <-. change (2 ^ Z.of_nat 0)%Q with 1%Q. ring.
  - rewrite (IH _ _ H). unfold doubled.
    rewrite Nat2Z.inj_succ, <- Z.add_1_r, Qpower_plus by done.
    change (2 ^ 1)%Q with 2%Q. ring.
Qed.

Section Sleeps.

Variable net : nat -> request -> get_outcome.

(** A round sleeps at most twice, each time for the current backoff, which
    it then doubles; the final round never sleeps. *)
Lemma attempt_body_sleeps url params tries attempt l w r w' :
  attempt_body net url params tries attempt l w = (r, w') ->
  exists n,
    (n <= 2)%nat /\ (attempt = tries -> n = 0%nat) /\
    log w' = log w ++ EvGet (request_of url params w)
                   :: map EvSleep (backoffs (backoff l) n) /\
    (forall l', r = Ret l' -> backoff l' = Nat.iter n doubled (backoff l)).
Proof.
  unfold attempt_body, try_except, bind, session_get, read_response,
    raise_for_status, sleep, raise, ret.
  intros H.
  repeat (case_match; simplify_eq/=); rewrite <- ?app_assoc; simpl;
    first [ exists 0%nat; repeat split; [lia|done..|by intros ? [= <-]]
          | exists 1%nat; repeat split; [lia|lia|done..|by intros ? [= <-]]
          | exists 2%nat; repeat split; [lia|lia|done..|by intros ? [= <-]] ].
Qed.

Lemma loop_sleeps url params tries xs :
  forall l w r w',
  for_each xs (attempt_body net url params tries) l w = (r, w') ->
  exists n,
    (n <= 2 * length (filter (fun x => x <> tries) xs))%nat /\
    sleeps (drop (length (log w)) (log w')) = backoffs (backoff l) n /\
    (forall l', r = Ret l' -> backoff l' = Nat.iter n doubled (backoff l)).
Proof.
  induction xs as [|x xs IH]; intros l w r w'; simpl.
  - unfold ret. intros [= <- <-]. exists 0%nat. rewrite drop_all.
    repeat split; [simpl; lia|by intros ? [= <-]].
  - unfold bind. destruct (attempt_body _ _ _ _ _ _ _) as [[l1|e1] w1] eqn:Hb;
      apply attempt_body_sleeps in Hb as (n1 & Hn1 & Hfinal & Hl1 & Hb1).
    + intros Hrest. destruct (IH _ _ _ _ Hrest) as (n2 & Hn2 & Hs2 & Hb2).
      exists (n1 + n2)%nat. split; [|split].
      * destruct (decide (x = tries)) as [->|Hx].
        -- rewrite filter_cons_False by (intros Hne; by apply Hne).
           rewrite (Hfinal eq_refl). simpl. lia.
        -- rewrite filter_cons_True by done. simpl. lia.
      * pose proof (loop_log net _ _ _ _ _ _ _ _ Hrest) as (_ & evs & Hl & _).
        rewrite Hl, Hl1, <- app_assoc, drop_app_length.
        rewrite Hl, drop_app_length in Hs2.
        change (EvGet ?q :: ?t) with ([EvGet q] ++ t).
        rewrite <- app_assoc, !sleeps_app, sleeps_of_sleeps, Hs2. simpl.
        by rewrite backoffs_app, (Hb1 _ eq_refl).
      * intros l' Hl'. rewrite (Hb2 _ Hl'), (Hb1 _ eq_refl).
        rewrite Nat.add_comm. by rewrite Nat.iter_add.
    + intros [= <- <-]. exists n1. split; [|split].
      * destruct (decide (x = tries)) as [->|Hx].
        -- rewrite (Hfinal eq_refl). lia.
        -- rewrite filter_cons_True by done. simpl. lia.
      * rewrite Hl1, drop_app_length.
        change (EvGet ?q :: ?t) with ([EvGet q] ++ t).
        by rewrite sleeps_app, sleeps_of_sleeps.
      * intros ? [=].
Qed.

Lemma range_non_final (tries : Z) :
  (length (filter (fun x => x <> tries) (range 1 (tries + 1))) <= Z.to_nat tries - 1)%nat.
Proof.
  destruct (Z.le_gt_cases tries 0) as [Hle|Hgt].
  - rewrite range_nil by lia. simpl. lia.
  - rewrite range_snoc by lia. rewrite filter_app.
    rewrite (filter_cons_False _ tries) by (intros Hne; by apply Hne).
    rewrite filter_nil, app_nil_r.
    etransitivity; [apply length_filter|]. rewrite range_length. lia.
Qed.

(** X5: the sleeps of a run of [fetcher] are the initial backoff, then twice
    the one before, and so on (the [i]-th lasts [initial_backoff * 2^i]), and
    there are at most two for each attempt but the last. *)
Theorem fetcher_backoff_doubles url params tries b w :
  let s := sleeps (trace_of (fetcher net url params tries b) w) in
  s = backoffs b (length s) /\
  (length s <= 2 * (Z.to_nat tries - 1))%nat /\
  (forall i d, s !! i = Some d -> (d == b * 2 ^ Z.of_nat i)%Q).
Proof.
  assert (exists n, (n <= 2 * (Z.to_nat tries - 1))%nat /\
            sleeps (trace_of (fetcher net url params tries b) w) = backoffs b n)
    as (n & Hn & Hs).
  { unfold trace_of, fetcher, bind.
    destruct (for_each _ _ _ _) as [[l1|e1] w1] eqn:Hloop;
      apply loop_sleeps in Hloop as (n & Hn & Hs & _); exists n;
      (split; [pose proof (range_non_final tries); lia|]);
      unfold read_response, response_json, raise, ret;
      repeat (case_match; simplify_eq/=); done. }
  intros s. subst s. rewrite Hs, backoffs_length. repeat split; [done|].
  intros i d. apply backoffs_lookup.
Qed.

End Sleeps.

(** * More on pagination *)

Section Pages.

Variable urljoin : string -> string -> string.
Variable net : nat -> request -> get_outcome.


Lemma bind_unpack_trace (m : M json) w : trace_of (bind m unpack) w = trace_of m w.
Proof. unfold trace_of. by rewrite bind_unpack_world. Qed.


(** A batch is yielded only if it is not empty. *)
Lemma iter_next_yields_truthy base_url path base_params start_page max_pages f w b f' w' :
  iter_next urljoin net base_url path base_params start_page max_pages f w =
    (Ret (Yield b, f'), w') ->
  truthy b = true.
Proof.
  destruct f; simpl; unfold loop_head, bind, ret; intros H;
    repeat (case_match; simplify_eq/=); by apply negb_false_iff.
Qed.

(** X8: [iter_pages] never yields an empty batch: every batch it yields is
    true as a Python value (a non-empty list, for a list). *)
Theorem iter_pages_batches_not_empty base_url path base_params start_page max_pages k w :
  Forall (fun b => truthy b = true)
    (batches (iter_pages urljoin net base_url path base_params start_page max_pages k w)).
Proof.
  unfold iter_pages. generalize NotStarted. revert w.
  induction k as [|k IH]; intros w f; [constructor|].
  rewrite drive_S.
  destruct (iter_next _ _ _ _ _ _ _ _ _) as [[[[b|] f']|e] w'] eqn:Hn;
    cbv zeta; cbn [batches]; [|constructor..].
  constructor; [by eapply iter_next_yields_truthy|apply IH].
Qed.

(** X9: when the first page has items and no continuation reference, exactly
    that one batch is yielded, whatever [max_pages], and nothing is fetched
    after the first call of [fetch_page]. *)
Theorem iter_pages_single_page base_url path base_params start_page max_pages
    k w items w1 :
  fetch_page urljoin net base_url path start_page base_params w =
    (Ret (items, JNull), w1) ->
  truthy items = true ->
  iter_pages urljoin net base_url path base_params start_page max_pages (S (S k)) w =
    {| batches := [items]; status := Exhausted; final := w1 |}.
Proof.
  intros Hpage Ht. unfold iter_pages. rewrite drive_S. simpl iter_next.
  unfold bind at 1. rewrite Hpage. simpl. unfold loop_head. rewrite Ht. simpl.
  destruct (reached max_pages (0 + 1)); done.
Qed.

(** X10: a cap of 1, of 0 or below 0 all act alike: when the first page has
    items, it is yielded, and the iteration ends there without another
    fetch, also when the page has a continuation reference. *)
Theorem iter_pages_cap_at_most_one base_url path base_params start_page N
    k w items next_url w1 :
  N <= 1 ->
  fetch_page urljoin net base_url path start_page base_params w =
    (Ret (items, next_url), w1) ->
  truthy items = true ->
  iter_pages urljoin net base_url path base_params start_page (Some N) (S (S k)) w =
    {| batches := [items]; status := Exhausted; final := w1 |}.
Proof.
  intros HN Hpage Ht. unfold iter_pages. rewrite drive_S. simpl iter_next.
  unfold bind at 1. rewrite Hpage. simpl. unfold loop_head. rewrite Ht. simpl.
  by replace (0 + 1 >=? N) with true by lia.
Qed.

Lemma gets_nil : gets [] = 0%nat.
Proof. reflexivity. Qed.

Lemma bind_loop_head_world (m : M (json * json)) pages_fetched w :
  snd (bind m (fun page => loop_head (fst page) (snd page) pages_fetched) w) = snd (m w).
Proof.
  unfold bind. destruct (m w) as [[page|e] w1]; [|done].
  unfold loop_head, ret. by destruct (negb _).
Qed.

Lemma continue_world (m : M json) pages_fetched w :
  snd (bind m (fun data =>
         bind (unpack data)
              (fun page => loop_head (fst page) (snd page) pages_fetched)) w) =
  snd (m w).
Proof.
  unfold bind at 1. destruct (m w) as [[data|e] w1]; [|done].
  rewrite bind_loop_head_world. apply unpack_pure.
Qed.

(** One round of the generator: the store and the log only grow, by at most
    three GETs; a resumed generator allocates nothing and requests the
    continuation reference as it is, without parameters. *)
Lemma iter_next_world base_url path base_params start_page max_pages f w :
  exists tmp evs,
    heap (snd (iter_next urljoin net base_url path base_params start_page max_pages f w)) =
      heap w ++ tmp /\
    log (snd (iter_next urljoin net base_url path base_params start_page max_pages f w)) =
      log w ++ evs /\
    (gets evs <= 3)%nat /\
    (forall items next_url pages_fetched,
       f = AtYield items next_url pages_fetched ->
       forall q, EvGet q ∈ evs -> q = {| req_url := next_url; req_params := None |}).
Proof.
  destruct f as [|items next_url pf|].
  - simpl. rewrite bind_loop_head_world.
    destruct (fetch_page_run urljoin net base_url path start_page base_params w)
      as (tmp & ->).
    rewrite bind_unpack_world.
    set (w3 := {| heap := _; log := log w |}). set (url := JStr _).
    destruct (fetcher_frame net url (Some (length (heap w ++ tmp)))
                default_tries default_initial_backoff w3) as (Hh & Hl & Hg & _).
    eexists (tmp ++ [_]), _. rewrite Hh, Hl. simpl. rewrite <- app_assoc.
    repeat split; [exact Hg|]. intros ? ? ? [=].
  - assert (exists evs,
        heap (snd (iter_next urljoin net base_url path base_params start_page max_pages
                     (AtYield items next_url pf) w)) = heap w /\
        log (snd (iter_next urljoin net base_url path base_params start_page max_pages
                    (AtYield items next_url pf) w)) = log w ++ evs /\
        (gets evs <= 3)%nat /\
        (forall q, EvGet q ∈ evs -> q = {| req_url := next_url; req_params := None |}))
      as (evs & Hh & Hl & Hg & Hq).
    { simpl. destruct (reached max_pages (pf + 1));
        [exists []; rewrite app_nil_r; repeat split; [rewrite gets_nil; lia|by intros ? ?%elem_of_nil]|].
      destruct (fetcher_frame net next_url None default_tries default_initial_backoff w)
        as (Hh & Hl & Hg & Hq).
      destruct next_url;
        try (rewrite continue_world;
             eexists; repeat split; [exact Hh|exact Hl|exact Hg|exact Hq]).
      exists []. rewrite app_nil_r. repeat split; [rewrite gets_nil; lia|by intros ? ?%elem_of_nil]. }
    exists [], evs. rewrite Hh, Hl, app_nil_r. repeat split; [done|].
    intros ? ? ? [= <- <- <-]. exact Hq.
  - exists [], []. simpl. rewrite !app_nil_r. repeat split; [rewrite gets_nil; lia|].
    intros ? ? ? [=].
Qed.

(** X11: a resumed generator fetches the continuation reference of the last
    page as it is: every GET of the round has that reference for url and no
    query parameters. *)
Theorem iter_pages_follows_next_verbatim base_url path base_params start_page max_pages
    items next_url pages_fetched w q :
  EvGet q ∈ trace_of (iter_next urljoin net base_url path base_params start_page max_pages
                        (AtYield items next_url pages_fetched)) w ->
  q = {| req_url := next_url; req_params := None |}.
Proof.
  destruct (iter_next_world base_url path base_params start_page max_pages
              (AtYield items next_url pages_fetched) w) as (tmp & evs & _ & Hl & _ & Hq).
  unfold trace_of. rewrite Hl, drop_app_length.
  apply (Hq items next_url pages_fetched eq_refl).
Qed.

(** [k] rounds grow the store and the log, by at most three GETs a round. *)
Lemma drive_world base_url path base_params start_page max_pages k :
  forall f w,
  exists tmp evs,
    heap (final (drive urljoin net base_url path base_params start_page max_pages k f w)) =
      heap w ++ tmp /\
    log (final (drive urljoin net base_url path base_params start_page max_pages k f w)) =
      log w ++ evs /\
    (gets evs <= 3 * k)%nat.
Proof.
  induction k as [|k IH]; intros f w.
  - exists [], []. simpl. rewrite !app_nil_r. repeat split. rewrite gets_nil. lia.
  - rewrite drive_S.
    destruct (iter_next_world base_url path base_params start_page max_pages f w)
      as (tmp & evs & Hh & Hl & Hg & _).
    destruct (iter_next _ _ _ _ _ _ _ _ _) as [[[[b|] f']|e] w'] eqn:Hn;
      simpl in Hh, Hl; cbv zeta; cbn [final].
    + destruct (IH f' w') as (tmp' & evs' & Hh' & Hl' & Hg').
      exists (tmp ++ tmp'), (evs ++ evs').
      rewrite Hh', Hl', Hh, Hl, <- !app_assoc, gets_app. repeat split. lia.
    + exists tmp, evs. repeat split; [done..|lia].
    + exists tmp, evs. repeat split; [done..|lia].
Qed.

(** Under a cap, a suspended generator that has counted [pages_fetched] pages
    issues at most three GETs for each page that the cap still allows. *)
Lemma drive_capped_gets base_url path base_params start_page N k :
  forall items next_url pages_fetched w,
  pages_fetched < N ->
  exists evs,
    log (final (drive urljoin net base_url path base_params start_page (Some N) k
                  (AtYield items next_url pages_fetched) w)) = log w ++ evs /\
    (gets evs <= 3 * Z.to_nat (N - 1 - pages_fetched))%nat.
Proof.
  induction k as [|k IH]; intros items next_url pf w Hpf.
  - exists []. simpl. rewrite app_nil_r. split; [done|]. rewrite gets_nil. lia.
  - rewrite drive_S. destruct (Z.le_gt_cases N (pf + 1)) as [Hcap|Hcap].
    + rewrite iter_next_at_cap by done. exists []. simpl. rewrite app_nil_r.
      split; [done|]. rewrite gets_nil. lia.
    + destruct (iter_next_world base_url path base_params start_page (Some N)
                  (AtYield items next_url pf) w) as (tmp & evs & _ & Hl & Hg & _).
      destruct (iter_next _ _ _ _ _ _ _ _ _) as [[[[b|] f']|e] w'] eqn:Hn;
        simpl in Hl; cbv zeta; cbn [final].
      * apply iter_next_resumed in Hn as (_ & next_url' & ->).
        destruct (IH b next_url' (pf + 1) w' ltac:(lia)) as (evs' & Hl' & Hg').
        exists (evs ++ evs'). rewrite Hl', Hl, <- app_assoc, gets_app.
        split; [done|]. lia.
      * exists evs. split; [done|]. lia.
      * exists evs. split; [done|]. lia.
Qed.

(** X12: the GETs of an iteration are bounded: at most three for each batch
    asked for, and under [max_pages = N], [N >= 1], at most [3 * N] however
    many batches are asked for. *)
Theorem iter_pages_get_budget base_url path base_params start_page max_pages k w :
  let evs :=
    drop (length (log w))
      (log (final (iter_pages urljoin net base_url path base_params start_page
                     max_pages k w))) in
  (gets evs <= 3 * k)%nat /\
  (forall N, max_pages = Some N -> 1 <= N -> (gets evs <= 3 * Z.to_nat N)%nat).
Proof.
  intros evs. subst evs. unfold iter_pages. split.
  - destruct (drive_world base_url path base_params start_page max_pages k NotStarted w)
      as (tmp & evs & _ & Hl & Hg).
    by rewrite Hl, drop_app_length.
  - intros N -> HN. destruct k as [|k].
    { simpl. rewrite drop_all, gets_nil. lia. }
    rewrite drive_S.
    destruct (iter_next_world base_url path base_params start_page (Some N) NotStarted w)
      as (tmp & evs & _ & Hl & Hg & _).
    destruct (iter_next _ _ _ _ _ _ _ _ _) as [[[[b|] f']|e] w'] eqn:Hn;
      simpl in Hl; cbv zeta; cbn [final].
    + apply iter_next_started in Hn as (next_url' & ->).
      destruct (drive_capped_gets base_url path base_params start_page N k b next_url' 0 w'
                  ltac:(lia)) as (evs' & Hl' & Hg').
      rewrite Hl', Hl, <- app_assoc, drop_app_length, gets_app. lia.
    + rewrite Hl, drop_app_length. lia.
    + rewrite Hl, drop_app_length. lia.
Qed.

(** X13: an iteration leaves every dictionary of the store as it was, the
    caller's [base_params] among them, and only adds to the log. *)
Theorem iter_pages_frame base_url path base_params start_page max_pages k w :
  (forall l d, heap w !! l = Some d ->
     heap (final (iter_pages urljoin net base_url path base_params start_page
                    max_pages k w)) !! l = Some d) /\
  exists evs,
    log (final (iter_pages urljoin net base_url path base_params start_page
                  max_pages k w)) = log w ++ evs.
Proof.
  unfold iter_pages.
  destruct (drive_world base_url path base_params start_page max_pages k NotStarted w)
    as (tmp & evs & Hh & Hl & _).
  split; [|by exists evs].
  intros l d Hld. rewrite Hh. by apply lookup_app_l_Some.
Qed.

End Pages.

(** * The callers *)

Section Callers.

Variable urljoin : string -> string -> string.
Variable net : nat -> request -> get_outcome.

(** X14: an error of the first fetch surfaces when the first batch is asked
    for: the iteration yields nothing and fails with that error. *)
Theorem iter_pages_first_fetch_fails base_url path base_params start_page max_pages
    k w e w1 :
  fetch_page urljoin net base_url path start_page base_params w = (Raise e, w1) ->
  iter_pages urljoin net base_url path base_params start_page max_pages (S k) w =
    {| batches := []; status := Failed e; final := w1 |}.
Proof.
  intros Hpage. unfold iter_pages. rewrite drive_S. simpl iter_next.
  unfold bind. by rewrite Hpage.
Qed.

(** X15: two pages come out in the order of the server: when the first page
    has items and a continuation reference, and the fetch of that reference
    gives a page with items and no reference, the iteration yields the first
    batch, then the second, and ends, if the cap allows two pages. *)
Theorem iter_pages_two_pages base_url path base_params start_page max_pages
    k w items1 next_url w1 items2 w2 :
  fetch_page urljoin net base_url path start_page base_params w =
    (Ret (items1, next_url), w1) ->
  bind (fetcher net next_url None default_tries default_initial_backoff) unpack w1 =
    (Ret (items2, JNull), w2) ->
  truthy items1 = true -> truthy items2 = true -> next_url <> JNull ->
  reached max_pages 1 = false ->
  iter_pages urljoin net base_url path base_params start_page max_pages (S (S (S k))) w =
    {| batches := [items1; items2]; status := Exhausted; final := w2 |}.
Proof.
  intros Hp1 Hp2 Ht1 Ht2 Hn Hcap. unfold iter_pages.
  assert (iter_next urljoin net base_url path base_params start_page max_pages
            NotStarted w = (Ret (Yield items1, AtYield items1 next_url 0), w1)) as H1.
  { simpl. unfold bind. rewrite Hp1. simpl. unfold loop_head. by rewrite Ht1. }
  assert (iter_next urljoin net base_url path base_params start_page max_pages
            (AtYield items1 next_url 0) w1 =
          (Ret (Yield items2, AtYield items2 JNull 1), w2)) as H2.
  { cbn [iter_next]. change (0 + 1) with 1. rewrite Hcap. unfold bind in Hp2 |- *.
    destruct next_url; try done;
      destruct (fetcher _ _ _ _ _ _) as [[data|e] w'']; try done;
      rewrite Hp2; simpl; unfold loop_head; by rewrite Ht2. }
  assert (iter_next urljoin net base_url path base_params start_page max_pages
            (AtYield items2 JNull 1) w2 = (Ret (StopIteration, Finished), w2)) as H3.
  { cbn [iter_next]. by destruct (reached max_pages (1 + 1)). }
  rewrite drive_S, H1. cbv beta iota zeta.
  rewrite drive_S, H2. cbv beta iota zeta.
  rewrite drive_S, H3. done.
Qed.

(** X16: [build_session] sets [User-Agent] to [layer-cli], sets
    [Authorization] to [Bearer <token>] exactly when the token is a
    non-empty string (with no token or an empty one the header is left as it
    was), and leaves every other header as it was; header names are matched
    without regard to case. *)
Theorem build_session_headers token h0 name :
  get_header name (build_session token h0) =
    if String.eqb (lower name) "user-agent" then Some "layer-cli"
    else if String.eqb (lower name) "authorization" then
      match token with
      | Some t => if String.eqb t "" then get_header name h0
                  else Some ("Bearer " ++ t)%string
      | None => get_header name h0
      end
    else get_header name h0.
Proof.
  unfold build_session, get_header, set_header.
  change (lower "User-Agent") with "user-agent"%string.
  change (lower "Authorization") with "authorization"%string.
  destruct (String.eqb_spec (lower name) "user-agent") as [->|Hua].
  - destruct token as [t|]; [destruct (String.eqb t "")|]; simpl;
      rewrite ?lookup_insert_ne by done; by rewrite lookup_insert_eq.
  - destruct (String.eqb_spec (lower name) "authorization") as [->|Hauth].
    + destruct token as [t|]; [destruct (String.eqb t "")|]; simpl;
        rewrite ?lookup_insert_eq; try done; by rewrite lookup_insert_ne.
    + destruct token as [t|]; [destruct (String.eqb t "")|]; simpl;
        by rewrite !lookup_insert_ne by done.
Qed.

(** X17: in single-page mode, a page whose list of results is empty makes
    [main] print a length of 0 and then fail with [IndexError], on
    [page_items[0]]. *)
Theorem main_single_empty_page args k w next_link w1 :
  arg_command args = "fetch"%string ->
  arg_all args = false ->
  fetch_page urljoin net (arg_base_url args) (arg_path args) (arg_page args) None w =
    (Ret (JArr [], next_link), w1) ->
  main urljoin net args k w =
    {| printed := [LengthOfItems 0]; ended := Died IndexError; world_after := w1 |}.
Proof.
  intros Hc Ha Hpage. unfold main, main_single. by rewrite Hc, Ha, Hpage.
Qed.



(** The loop of [main] consumes the generator as [drive] does. *)
Lemma main_loop_drive args k :
  forall f pages total_items w,
  let r := drive urljoin net (arg_base_url args) (arg_path args) None (arg_page args)
             (Some (arg_max_pages args)) k f w in
  Forall (fun b => is_Some (py_len b)) (batches r) ->
  main_loop urljoin net args k f pages total_items w =
    {| printed := report pages total_items (batches r);
       ended := status_of_run (status r);
       world_after := final r |}.
Proof.
  induction k as [|k IH]; intros f pages total w r; subst r; [done|].
  rewrite drive_S. cbn [main_loop].
  destruct (iter_next _ _ _ _ _ _ _ _ _) as [[[[b|] f']|e] w'] eqn:Hn; [|done..].
  cbv zeta. cbn [batches status final]. intros Hb.
  apply Forall_cons in Hb as ([n Hn'] & Hb). rewrite Hn'.
  rewrite (IH f' (pages + 1) (total + n) w' Hb). simpl. by rewrite Hn'.
Qed.

(** X19: in [--all] mode [main] is a running count over [iter_pages]: when
    the batches that [iter_pages] yields under the cap [--max-pages] all
    have a length, [main] prints for each, in order, the number of pages so
    far and the sum of the lengths so far, ends as the iteration ends, and
    leaves the world as the iteration leaves it. *)
Theorem main_all_reports_iter_pages args k w :
  arg_command args = "fetch"%string ->
  arg_all args = true ->
  let r := iter_pages urljoin net (arg_base_url args) (arg_path args) None (arg_page args)
             (Some (arg_max_pages args)) k w in
  Forall (fun b => is_Some (py_len b)) (batches r) ->
  main urljoin net args k w =
    {| printed := report 0 0 (batches r);
       ended := status_of_run (status r);
       world_after := final r |}.
Proof.
  intros Hc Ha r Hb. unfold main. rewrite Hc, Ha. simpl.
  by apply main_loop_drive.
Qed.

End Callers.

(** ** Malformed pages and the exact cap *)

Section Bodies.

Variable urljoin : string -> string -> string.
Variable net : nat -> request -> get_outcome.

(** When the three GETs of [fetch_page] are answered, its result is decided
    by the body of the third answer. *)
Lemma fetch_page_answered base_url path page base_params w r3 :
  let rq := {| req_url := JStr (urljoin (rstrip_slash base_url ++ "/")%string
                                        (lstrip_slash path));
               req_params := Some (<["page" := PInt page]> (base_content base_params w)) |} in
  (forall i, (i < 3)%nat -> exists r, net (gets (log w) + i)%nat rq = Responds r) ->
  net (gets (log w) + 2)%nat rq = Responds r3 ->
  result_of (fetch_page urljoin net base_url path page base_params) w =
    match body r3 with
    | Some data => fst (unpack data w)
    | None => Raise JSONDecodeError
    end.
Proof.
  intros rq Hall H3. unfold result_of.
  destruct (fetch_page_run urljoin net base_url path page base_params w) as (tmp & ->).
  set (w3 := {| heap := _; log := log w |}). set (url := JStr _).
  set (p := length (heap w ++ tmp)).
  assert (request_of url (Some p) w3 = rq) as Hrq.
  { unfold request_of. subst w3 p rq url. simpl.
    by rewrite lookup_app_r, Nat.sub_diag by done. }
  destruct (fetcher_all_answered net url (Some p) default_tries default_initial_backoff
              w3 r3) as (_ & Hres).
  { unfold default_tries. lia. }
  { rewrite Hrq. exact Hall. }
  { rewrite Hrq. change (Z.to_nat default_tries) with 3%nat.
    by replace (gets (log w3) + 3 - 1)%nat with (gets (log w) + 2)%nat by (simpl; lia). }
  unfold result_of in Hres. unfold bind.
  destruct (fetcher net url (Some p) default_tries default_initial_backoff w3)
    as [[data|e] w4]; simpl in Hres; destruct (body r3) as [data'|]; simplify_eq/=; try done.
  unfold unpack, missing_keys, contains, getitem, raise_str, bind, raise, ret.
  repeat (case_match; simplify_eq/=); done.
Qed.

(** X20: a page that does not keep the contract fails each in its own way.
    With the three GETs answered, [fetch_page] raises [JSONDecodeError] when
    the last body does not decode, a [TypeError] when it decodes to a number,
    a boolean or null, [KeyError] for ['next'] when ['info'] is an object
    without ['next'], and a [TypeError] when ['info'] is not an object. *)
Theorem fetch_page_malformed_body base_url path page base_params w r3 :
  let rq := {| req_url := JStr (urljoin (rstrip_slash base_url ++ "/")%string
                                        (lstrip_slash path));
               req_params := Some (<["page" := PInt page]> (base_content base_params w)) |} in
  let result := result_of (fetch_page urljoin net base_url path page base_params) w in
  (forall i, (i < 3)%nat -> exists r, net (gets (log w) + i)%nat rq = Responds r) ->
  net (gets (log w) + 2)%nat rq = Responds r3 ->
  (body r3 = None -> result = Raise JSONDecodeError) /\
  (forall v, body r3 = Some v ->
     match v with JNull | JBool _ | JNum _ => True | _ => False end ->
     result = Raise (TypeError NotIterable)) /\
  (forall d di items,
     body r3 = Some (JObj d) -> d !! "results" = Some items ->
     d !! "info" = Some (JObj di) -> di !! "next" = None ->
     result = Raise (KeyError "next")) /\
  (forall d items info,
     body r3 = Some (JObj d) -> d !! "results" = Some items ->
     d !! "info" = Some info ->
     match info with JObj _ => False | _ => True end ->
     result = Raise (TypeError NotSubscriptable)).
Proof.
  intros rq result Hall H3. subst result.
  rewrite (fetch_page_answered base_url path page base_params w r3 Hall H3).
  repeat split.
  - by intros ->.
  - intros v -> Hv. by destruct v.
  - intros d di items -> Hr Hi Hn.
    unfold unpack, missing_keys, contains, getitem, bind, ret, raise.
    rewrite Hr, Hi. simpl. by rewrite Hn.
  - intros d items info -> Hr Hi Hinfo.
    unfold unpack, missing_keys, contains, getitem, bind, ret, raise.
    rewrite Hr, Hi. simpl. by destruct info.
Qed.

(** A round that the cap allows, on a server that always has more, yields. *)
Lemma iter_next_more_below_cap base_url path base_params start_page N f w :
  (forall n q, more_to_come (net n q) = true) ->
  resumable f ->
  (forall items next_url pages_fetched,
     f = AtYield items next_url pages_fetched -> pages_fetched + 1 < N) ->
  exists b next_url' w',
    iter_next urljoin net base_url path base_params start_page (Some N) f w =
      (Ret (Yield b,
            AtYield b next_url'
              match f with AtYield _ _ pages_fetched => pages_fetched + 1 | _ => 0 end),
       w') /\
    next_url' <> JNull.
Proof.
  intros Hmore Hf Hcap. destruct f as [|items next_url pf|]; [| |done].
  - simpl. destruct (fetch_page_run urljoin net base_url path start_page base_params w)
      as (tmp & Hrun).
    set (w3 := {| heap := _; log := _ |}) in Hrun.
    destruct (fetcher_more net (JStr (urljoin (rstrip_slash base_url ++ "/")%string
                (lstrip_slash path))) (Some (length (heap w ++ tmp))) w3 Hmore)
      as (items & next_url & w' & Hf' & Ht & Hn).
    unfold bind at 1. rewrite Hrun, Hf'. simpl. unfold loop_head. rewrite Ht. simpl.
    unfold ret. eauto.
  - simpl in Hf. specialize (Hcap _ _ _ eq_refl).
    destruct (fetcher_more net next_url None w Hmore)
      as (items' & next_url' & w' & Hf' & Ht & Hn).
    cbn [iter_next reached]. replace (pf + 1 >=? N) with false by lia.
    unfold bind in Hf' |- *.
    destruct next_url; try done;
      destruct (fetcher _ _ _ _ _ _) as [[data|e] w1]; try done;
      rewrite Hf'; simpl; unfold loop_head; rewrite Ht; simpl; unfold ret; eauto.
Qed.

Lemma drive_more_capped base_url path base_params start_page N k :
  (forall n q, more_to_come (net n q) = true) ->
  forall items next_url pages_fetched w,
  next_url <> JNull -> pages_fetched < N ->
  (Z.to_nat (N - 1 - pages_fetched) < k)%nat ->
  length (batches (drive urljoin net base_url path base_params start_page (Some N) k
                     (AtYield items next_url pages_fetched) w)) =
    Z.to_nat (N - 1 - pages_fetched) /\
  status (drive urljoin net base_url path base_params start_page (Some N) k
            (AtYield items next_url pages_fetched) w) = Exhausted.
Proof.
  intros Hmore. induction k as [|k IH]; intros items next_url pf w Hn Hpf Hk; [lia|].
  rewrite drive_S. destruct (Z.le_gt_cases N (pf + 1)) as [Hcap|Hcap].
  - rewrite iter_next_at_cap by done. simpl. split; [lia|done].
  - destruct (iter_next_more_below_cap base_url path base_params start_page N
                (AtYield items next_url pf) w Hmore Hn) as (b & next_url' & w' & -> & Hn').
    { intros ? ? ? [= <- <- <-]. lia. }
    destruct (IH b next_url' (pf + 1) w' Hn' ltac:(lia) ltac:(lia)) as (Hlen & Hst).
    cbv zeta. cbn [batches status length]. rewrite Hlen, Hst. split; [lia|done].
Qed.

(** X21: the cap is reached exactly: on a server whose every page has items
    and a continuation reference, [max_pages = N] with [N >= 1] gives exactly
    [N] batches, and the iteration has ended normally once more than [N]
    batches were asked for. *)
Theorem iter_pages_cap_is_exact base_url path base_params start_page N k w :
  (forall n q, more_to_come (net n q) = true) ->
  1 <= N ->
  (Z.to_nat N < k)%nat ->
  length (batches (iter_pages urljoin net base_url path base_params start_page
                     (Some N) k w)) = Z.to_nat N /\
  status (iter_pages urljoin net base_url path base_params start_page (Some N) k w) =
    Exhausted.
Proof.
  intros Hmore HN Hk. unfold iter_pages. destruct k as [|k]; [lia|].
  rewrite drive_S.
  destruct (iter_next_more_below_cap base_url path base_params start_page N
              NotStarted w Hmore I) as (b & next_url' & w' & -> & Hn'); [done|].
  destruct (drive_more_capped base_url path base_params start_page N k Hmore
              b next_url' 0 w' Hn' ltac:(lia) ltac:(lia)) as (Hlen & Hst).
  cbv zeta. cbn [batches status length]. rewrite Hlen, Hst. split; [lia|done].
Qed.

End Bodies.

(** ** The further properties at concrete inputs *)

Lemma fetcher_all_answered_witness :
  trace_of (fetcher (net_status 500 "Internal Server Error") (JStr "u") None 3 (1 # 2))
    empty_world = replicate 3 (get "u") /\
  result_of (fetcher (net_status 500 "Internal Server Error") (JStr "u") None 3 (1 # 2))
    empty_world = Ret (error_body "Internal Server Error").
Proof.
  apply (fetcher_all_answered (net_status 500 "Internal Server Error") (JStr "u") None 3
           (1 # 2) empty_world
           {| status_code := 500; body := Some (error_body "Internal Server Error") |});
    [lia | intros i _; eexists; reflexivity | reflexivity].
Defined.

Lemma fetcher_without_tries_witness :
  fetcher net_all_ok (JStr "u") None 0 (1 # 2) empty_world =
    (Raise (UnboundLocalError "response"), empty_world).
Proof. apply (fetcher_without_tries net_all_ok (JStr "u") None 0 (1 # 2) empty_world). lia. Defined.



Lemma fetcher_backoff_doubles_witness :
  ((1 # 2) * 2 == (1 # 2) * 2 ^ Z.of_nat 1)%Q.
Proof.
  apply (proj2 (proj2 (fetcher_backoff_doubles (net_then_drop 503) (JStr "u") None 3
                         (1 # 2) empty_world)) 1%nat).
  reflexivity.
Defined.

Lemma fetcher_returns_last_body_witness :
  1 <= 3 /\
  gets (trace_of (fetcher net_all_ok (JStr "u") None 3 (1 # 2)) empty_world) = Z.to_nat 3 /\
  exists r,
    net_all_ok (gets (log empty_world) + Z.to_nat 3 - 1)%nat
      (request_of (JStr "u") None empty_world) = Responds r /\
    body r = Some (page_body [JNum 2] JNull).
Proof.
  apply (fetcher_returns_last_body net_all_ok (JStr "u") None 3 (1 # 2) empty_world).
  reflexivity.
Defined.


Lemma iter_pages_single_page_witness :
  iter_pages String.append net_all_ok "https://h/" "/api" None 1 None 4 empty_world =
    {| batches := [JArr [JNum 2]]; status := Exhausted;
       final := snd (fetch_page String.append net_all_ok "https://h/" "/api" 1 None
                       empty_world) |}.
Proof.
  apply (iter_pages_single_page String.append net_all_ok "https://h/" "/api" None 1 None 2
           empty_world (JArr [JNum 2])); reflexivity.
Defined.

Lemma iter_pages_cap_at_most_one_witness :
  iter_pages String.append net_endless "https://h/" "/api" None 1 (Some 0) 4 empty_world =
    {| batches := [JArr [JNum 2]]; status := Exhausted;
       final := snd (fetch_page String.append net_endless "https://h/" "/api" 1 None
                       empty_world) |}.
Proof.
  apply (iter_pages_cap_at_most_one String.append net_endless "https://h/" "/api" None 1 0 2
           empty_world (JArr [JNum 2]) (JStr "https://h/api?page=next"));
    [lia | reflexivity | reflexivity].
Defined.

Lemma iter_pages_follows_next_verbatim_witness :
  {| req_url := JStr "https://h/api?page=2"; req_params := None |} =
  {| req_url := JStr "https://h/api?page=2"; req_params := None |}.
Proof.
  apply (iter_pages_follows_next_verbatim String.append net_all_ok "https://h/" "/api"
           None 1 None (JArr [JStr "a"]) (JStr "https://h/api?page=2") 0 empty_world).
  change (trace_of _ empty_world)
    with [get "https://h/api?page=2"; get "https://h/api?page=2"; get "https://h/api?page=2"].
  apply list_elem_of_here.
Defined.

Lemma iter_pages_get_budget_witness :
  (gets (drop (length (log empty_world))
           (log (final (iter_pages String.append net_endless "https://h/" "/api" None 1
                          (Some 2%Z) 5 empty_world)))) <= 3 * Z.to_nat 2)%nat.
Proof.
  apply (proj2 (iter_pages_get_budget String.append net_endless "https://h/" "/api" None 1
                  (Some 2) 5 empty_world) 2); [reflexivity | lia].
Defined.

Lemma iter_pages_frame_witness :
  heap (final (iter_pages String.append net_endless "https://h/" "/api" (Some 0%nat) 1
                 (Some 3) 5 world_with_params)) !! 0%nat =
    Some {[ "name" := PStr "rick" ]}.
Proof.
  apply (proj1 (iter_pages_frame String.append net_endless "https://h/" "/api" (Some 0%nat) 1
                  (Some 3) 5 world_with_params)).
  reflexivity.
Defined.

Lemma iter_pages_first_fetch_fails_witness :
  iter_pages String.append net_no_results "https://h/" "/api" None 1 None 3 empty_world =
    {| batches := []; status := Failed (TypeError NotAnException);
       final := snd (fetch_page String.append net_no_results "https://h/" "/api" 1 None
                       empty_world) |}.
Proof.
  apply (iter_pages_first_fetch_fails String.append net_no_results "https://h/" "/api"
           None 1 None 2 empty_world).
  reflexivity.
Defined.

Lemma iter_pages_two_pages_witness :
  iter_pages String.append net_two_pages "https://h/" "/api" None 1 None 5 empty_world =
    {| batches := [JArr [JStr "a"; JStr "b"]; JArr [JStr "c"]]; status := Exhausted;
       final := snd (bind (fetcher net_two_pages (JStr "https://h/api?page=2") None
                             default_tries default_initial_backoff) unpack
                       (snd (fetch_page String.append net_two_pages "https://h/" "/api" 1
                               None empty_world))) |}.
Proof.
  apply (iter_pages_two_pages String.append net_two_pages "https://h/" "/api" None 1 None 2
           empty_world (JArr [JStr "a"; JStr "b"]) (JStr "https://h/api?page=2")
           (snd (fetch_page String.append net_two_pages "https://h/" "/api" 1 None
                   empty_world)));
    [reflexivity | reflexivity | reflexivity | reflexivity | discriminate | reflexivity].
Defined.

Lemma main_single_empty_page_witness :
  main String.append net_empty_page (default_args "https://h/" "/api") 0 empty_world =
    {| printed := [LengthOfItems 0]; ended := Died IndexError;
       world_after := snd (fetch_page String.append net_empty_page "https://h/" "/api" 1
                             None empty_world) |}.
Proof.
  apply (main_single_empty_page String.append net_empty_page
           (default_args "https://h/" "/api") 0 empty_world JNull);
    reflexivity.
Defined.


Lemma main_all_reports_iter_pages_witness :
  main String.append net_two_pages args_all 5 empty_world =
    {| printed := [PagesFetched 1; TotalItems 2; PagesFetched 2; TotalItems 3];
       ended := Done;
       world_after :=
         final (iter_pages String.append net_two_pages "https://h/" "/api" None 1
                  (Some cli_default_max_pages) 5 empty_world) |}.
Proof.
  apply (main_all_reports_iter_pages String.append net_two_pages args_all 5 empty_world);
    [reflexivity | reflexivity |].
  repeat constructor; eexists; reflexivity.
Defined.

Lemma fetch_page_malformed_body_witness :
  result_of (fetch_page String.append net_not_json "https://h/" "/api" 1 None) empty_world =
    Raise JSONDecodeError.
Proof.
  apply (proj1 (fetch_page_malformed_body String.append net_not_json
                  "https://h/" "/api" 1 None empty_world
                  {| status_code := 200; body := None |}
                  (fun i _ => ex_intro _ _ eq_refl) eq_refl)).
  reflexivity.
Defined.

Lemma iter_pages_cap_is_exact_witness :
  length (batches (iter_pages String.append net_endless "https://h/" "/api" None 1
                     (Some 4) 9 empty_world)) = Z.to_nat 4 /\
  status (iter_pages String.append net_endless "https://h/" "/api" None 1 (Some 4) 9
            empty_world) = Exhausted.
Proof.
  apply (iter_pages_cap_is_exact String.append net_endless "https://h/" "/api" None 1 4 9
           empty_world); [intros n q; reflexivity | lia | vm_compute; lia].
Defined.
